(** * NCrystal configuration variables: a shallow embedding

    The definitions below follow
    [ncrystal_core/include/NCrystal/internal/NCCfgVars.hh] (the cfg-variable
    definitions, the [FactNameRequest] book-keeping class with its parser,
    the [varlist] table) and [ncrystal_core/src/NCTypes.cc] (stream output of
    [OrientDir]).

    Conventions:
    - [std::string] and [StrView] are both lists of characters;
    - a function that may throw returns a [Result]; the only exception class
      that occurs is [Error::BadInput], carrying its message;
    - a [double] is an IEEE-754 datum ([spec_float]) and is only ever
      compared, never computed with;
    - [std::int64_t] values are integers in [Z];
    - a [for] loop over a container is a monadic fold over a list. *)

From Stdlib Require Import List Bool Ascii String ZArith NArith PArith Lia.
From Stdlib Require Import Floats.SpecFloat.
From Stdlib Require Import Sorting.Permutation Sorting.Sorted.
Import ListNotations.

Local Open Scope list_scope.

(** ** Strings *)

Definition std_string : Type := list ascii.

(** A C++ string literal. *)
Definition lit (s : String.string) : std_string := list_ascii_of_string s.

(** The double quote character (an escaped quote inside C++ literals). *)
Definition dq : std_string := ["034"%char].

Fixpoint streq (a b : std_string) : bool :=
  match a, b with
  | [], [] => true
  | x :: a', y :: b' => Ascii.eqb x y && streq a' b'
  | _, _ => false
  end.

Definition empty (s : std_string) : bool :=
  match s with [] => true | _ :: _ => false end.

(** ** Errors *)

Inductive Error : Type :=
| BadInput (what : std_string).

Definition what (e : Error) : std_string :=
  match e with BadInput w => w end.

Inductive Result (A : Type) : Type :=
| Ok (a : A)
| Throw (e : Error).

Arguments Ok {A} a.
Arguments Throw {A} e.

Definition bind {A B} (m : Result A) (k : A -> Result B) : Result B :=
  match m with
  | Ok a => k a
  | Throw e => Throw e
  end.

Notation "x <- m ;; k" := (bind m (fun x => k))
  (at level 61, m at next level, right associativity).
Notation "m ;;; k" := (bind m (fun _ => k))
  (at level 61, right associativity).

(** NCRYSTAL_THROW2(BadInput, msg) *)
Definition NCRYSTAL_THROW2 {A} (msg : std_string) : Result A :=
  Throw (BadInput msg).

(** A range-based [for] loop whose body may throw: the loop state is threaded
    through the elements in order and the first exception leaves the loop. *)
Fixpoint for_each {S E} (body : S -> E -> Result S) (range : list E) (st : S)
  : Result S :=
  match range with
  | [] => Ok st
  | e :: rest => st' <- body st e ;; for_each body rest st'
  end.

Definition throws {A} (r : Result A) : Prop := exists msg, r = Throw (BadInput msg).

(** ** String helpers used by the cfg-variable code *)

Module StrView.

(** Modelled from the spec: the whitespace characters of the string
    utilities (NCString.hh / NCStrView.hh are not among the files at hand):
    space, tab, line feed and carriage return. *)
Definition isWhiteSpace (c : ascii) : bool :=
  Ascii.eqb c " "%char || Ascii.eqb c "009"%char
  || Ascii.eqb c "010"%char || Ascii.eqb c "013"%char.

Fixpoint ltrimmed (s : std_string) : std_string :=
  match s with
  | [] => []
  | c :: t => if isWhiteSpace c then ltrimmed t else s
  end.

Definition rtrimmed (s : std_string) : std_string := rev (ltrimmed (rev s)).

(** Modelled from the spec: [StrView::trimmed] removes surrounding
    whitespace ("names are trimmed of surrounding whitespace"). *)
Definition trimmed (s : std_string) : std_string := rtrimmed (ltrimmed s).

(** Cuts a string at every character satisfying [p]; empty pieces are
    kept, so a string with n cut points gives n+1 pieces. *)
Fixpoint split_by (p : ascii -> bool) (s : std_string) : list std_string :=
  match s with
  | [] => [[]]
  | c :: t =>
      if p c then [] :: split_by p t
      else match split_by p t with
           | [] => [[c]]
           | piece :: pieces => (c :: piece) :: pieces
           end
  end.

Definition nonempty (s : std_string) : bool := negb (empty s).

(** Modelled from the spec: [StrView::splitTrimmedNoEmpty(sep)] cuts at the
    separator, trims every piece and drops the pieces that are empty then
    ("a sequence of @-separated entries", "names are trimmed"). *)
Definition splitTrimmedNoEmpty (sep : ascii) (s : std_string) : list std_string :=
  filter nonempty (map trimmed (split_by (Ascii.eqb sep) s)).

(** Modelled from the spec: [StrView::split()] without argument cuts at
    whitespace and yields the non-empty words ("runs of whitespace
    collapsed, leading/trailing trimmed"). *)
Definition split (s : std_string) : list std_string :=
  filter nonempty (split_by isWhiteSpace s).

(** Modelled from the spec: [StrView::startswith(c)] tells whether the
    first character is [c] ("a !-prefixed factory name"). *)
Definition startswith (s : std_string) (c : ascii) : bool :=
  match s with
  | [] => false
  | x :: _ => Ascii.eqb x c
  end.

(** Modelled from the spec: [StrView::substr(pos)] is the view without its
    first [pos] characters (here the name after the [!]). *)
Definition substr (s : std_string) (pos : nat) : std_string := skipn pos s.

(** Modelled from the spec: [StrView::contains_only(chars)] holds when every
    character of the view occurs in [chars]. *)
Definition contains_only (s chars : std_string) : bool :=
  forallb (fun c => existsb (Ascii.eqb c) chars) s.

End StrView.

(** Modelled from the spec: [isAlphaNumeric] accepts the characters of
    [A-Za-z0-9] (the factory-name grammar is [A-Za-z0-9_-]+). *)
Definition isAlphaNumeric (c : ascii) : bool :=
  let n := N_of_ascii c in
  ((48 <=? n) && (n <=? 57) || (65 <=? n) && (n <=? 90)
   || (97 <=? n) && (n <=? 122))%N.

(** Modelled from the spec: [isOneOf(sv, a, b, ...)] compares against each
    alternative ("several disable spellings collapse to one token"). *)
Definition isOneOf (sv : std_string) (alts : list std_string) : bool :=
  existsb (streq sv) alts.

(** Modelled from the spec: [strreplace(str, ":", " ")], as used here,
    replaces every occurrence of the one-character pattern by the
    one-character substitute ("[:] characters are treated as additional
    whitespace"). *)
Definition strreplace (s : std_string) (old new : ascii) : std_string :=
  map (fun c => if Ascii.eqb c old then new else c) s.

(** Modelled from the spec: [joinstr(parts, sep)] writes the parts with the
    separator in between ("re-joined with [:] as the canonical field
    separator"). *)
Fixpoint joinstr (parts : list std_string) (sep : std_string) : std_string :=
  match parts with
  | [] => []
  | [p] => p
  | p :: rest => p ++ sep ++ joinstr rest sep
  end.

(** Modelled from the spec: [split2(str, 0, sep)] cuts at every [sep], with
    no limit on the number of pieces. *)
Definition split2 (s : std_string) (sep : ascii) : list std_string :=
  StrView.split_by (Ascii.eqb sep) s.

(** ** Numbers *)

(** A C++ [double].  Only comparisons occur in the code below; they are the
    IEEE-754 ones, false whenever an operand is NaN. *)
Definition double : Type := spec_float.

Declare Scope double_scope.
Delimit Scope double_scope with dbl.

Definition dbl_eq (a b : double) : bool := SFeqb a b.
Definition dbl_lt (a b : double) : bool := SFltb a b.
Definition dbl_le (a b : double) : bool := SFleb a b.
Definition dbl_gt (a b : double) : bool := SFltb b a.
Definition dbl_ge (a b : double) : bool := SFleb b a.

Infix "==" := dbl_eq (at level 70, no associativity) : double_scope.
Infix "<" := dbl_lt : double_scope.
Infix "<=" := dbl_le : double_scope.
Infix ">" := dbl_gt : double_scope.
Infix ">=" := dbl_ge : double_scope.

(** The binary64 values denoted by the decimal literals of the source. *)
Module Lit.
Definition d0_0 : double := S754_zero false.
Definition neg_d0_0 : double := S754_zero true.
Definition neg_d1_0 : double := S754_finite true 4503599627370496 (-52).
Definition d0_001 : double := S754_finite false 4611686018427388 (-62).
Definition d1e_3 : double := d0_001.
Definition d1e6 : double := S754_finite false 8589934592000000 (-33).
Definition d1e5 : double := S754_finite false 6871947673600000 (-36).
Definition d1e_7 : double := S754_finite false 7555786372591432 (-76).
Definition d1e_1 : double := S754_finite false 7205759403792794 (-56).
Definition d0_4 : double := S754_finite false 7205759403792794 (-54).
Definition d1e_4 : double := S754_finite false 7378697629483821 (-66).
(** Used in statements only: 0.0009, and the successor of 1e6. *)
Definition d0_0009 : double := S754_finite false 8301034833169298 (-63).
Definition d1e6_next : double := S754_finite false 8589934592000001 (-33).
End Lit.

(** binary64 data: 53 bits of precision, exponents up to 1024. *)
Definition is_binary64 (x : double) : bool := valid_binary 53 1024 x.

(** The rational value [m * 2^e] of a finite positive datum, as a fraction
    of integers [(numerator, denominator)]. *)
Definition fraction_of (x : double) : option (Z * Z) :=
  match x with
  | S754_finite false m e =>
      Some (if (0 <=? e)%Z then (Z.pos m * 2 ^ e, 1) else (Z.pos m, 2 ^ (- e)))%Z
  | _ => None
  end.

Inductive VarGroupId : Type := Info | ScatterBase | ScatterExtra | Absorption.

(** ** Cfg-variable definitions with a numeric validator *)

Module vardef_temp.
Definition name : std_string := lit "temp".
Definition group := Info.
Definition default_value : double := Lit.neg_d1_0.
(** [show_temperature] is the stream output of a [Temperature], which is
    defined outside the files at hand. *)
Definition value_validate (show_temperature : double -> std_string)
  (value : double) : Result double :=
  if negb ((value == Lit.neg_d1_0)
           || ((value >= Lit.d0_001) && (value <= Lit.d1e6)))%dbl
  then NCRYSTAL_THROW2
         (lit "Out of range temperature value " ++ show_temperature value
          ++ lit " provided for parameter " ++ dq ++ name ++ dq
          ++ lit " (valid temperatures must be in the range 0.001K .. 1000000K)")
  else Ok value.
End vardef_temp.

Module vardef_dcutoff.
Definition name : std_string := lit "dcutoff".
Definition group := Info.
Definition default_value : double := Lit.d0_0.
Definition value_validate (value : double) : Result double :=
  if ((value == Lit.neg_d1_0) || (value == Lit.d0_0))%dbl
  then Ok Lit.d0_0
  else if negb (value > Lit.d0_0)%dbl
  then NCRYSTAL_THROW2 (name ++ lit " must be >=0.0")
  else if negb ((value >= Lit.d1e_3) && (value <= Lit.d1e5))%dbl
  then NCRYSTAL_THROW2
         (name ++ lit " must be 0 (for automatic selection), or in range [1e-3,1e5] (Aa)")
  else Ok value.
End vardef_dcutoff.

Module vardef_dcutoffup.
Definition name : std_string := lit "dcutoffup".
Definition group := Info.
Definition default_value : double := S754_infinity false.
Definition value_validate (value : double) : Result double :=
  if negb (value >= Lit.d0_0)%dbl
  then NCRYSTAL_THROW2 (name ++ lit " must be >=0.0")
  else Ok value.
End vardef_dcutoffup.

Module vardef_sccutoff.
Definition name : std_string := lit "sccutoff".
Definition group := ScatterExtra.
Definition default_value : double := Lit.d0_4.
Definition value_validate (value : double) : Result double :=
  if negb (value >= Lit.d0_0)%dbl
  then NCRYSTAL_THROW2 (name ++ lit " must be >=0.0")
  else Ok value.
End vardef_sccutoff.

(** [kPiHalf] and [kPi] are constants declared outside the files at hand;
    the validators take them as arguments. *)
Module vardef_mos.
Definition name : std_string := lit "mos".
Definition group := ScatterExtra.
Definition value_validate (kPiHalf : double) (value : double) : Result double :=
  if (negb (value > Lit.d0_0) || (value > kPiHalf))%dbl
  then NCRYSTAL_THROW2 (name ++ lit " must be in range (0.0,pi/2]")
  else Ok value.
End vardef_mos.

Module vardef_dirtol.
Definition name : std_string := lit "dirtol".
Definition group := ScatterExtra.
Definition default_value : double := Lit.d1e_4.
Definition value_validate (kPi : double) (value : double) : Result double :=
  if negb ((value > Lit.d0_0) && (value <= kPi))%dbl
  then NCRYSTAL_THROW2 (name ++ lit " must be in range (0.0,pi]")
  else Ok value.
End vardef_dirtol.

Module vardef_mosprec.
Definition name : std_string := lit "mosprec".
Definition group := ScatterExtra.
Definition default_value : double := Lit.d1e_3.
Definition value_validate (value : double) : Result double :=
  if (negb (value >= Lit.d1e_7) || (value > Lit.d1e_1))%dbl
  then NCRYSTAL_THROW2 (name ++ lit " must be in range [1e-7,1e-1]")
  else Ok value.
End vardef_mosprec.

Module vardef_vdoslux.
Definition name : std_string := lit "vdoslux".
Definition group := ScatterBase.
Definition default_value : Z := 3.
Definition value_validate (value : Z) : Result Z :=
  if ((value <? 0) || (value >? 5))%Z
  then NCRYSTAL_THROW2 (name ++ lit " must be an integral value from 0 to 5")
  else Ok value.
End vardef_vdoslux.

Module vardef_lcmode.
Definition name : std_string := lit "lcmode".
Definition group := ScatterExtra.
Definition default_value : Z := 0.
Definition a : Z := 4000000000.
Definition b : Z := - a.
Definition value_validate (value : Z) : Result Z :=
  if ((value <? b) || (value >? a))%Z
  then NCRYSTAL_THROW2
         (name ++ lit " must be an integral value from " ++ lit "-4000000000"
          ++ lit " to " ++ lit "4000000000")
  else Ok value.
End vardef_lcmode.

(** The remaining variables have no [value_validate]: the orientation and
    boolean variables take the checks of their value kind, and
    [vardef_lcaxis::extraChecks] only inspects its vector and returns
    nothing. *)
Module vardef_dir1.
Definition name : std_string := lit "dir1".
Definition group := ScatterExtra.
End vardef_dir1.

Module vardef_dir2.
Definition name : std_string := lit "dir2".
Definition group := ScatterExtra.
End vardef_dir2.

Module vardef_lcaxis.
Definition name : std_string := lit "lcaxis".
Definition group := ScatterExtra.
End vardef_lcaxis.

Module vardef_incoh_elas.
Definition name : std_string := lit "incoh_elas".
Definition group := ScatterBase.
End vardef_incoh_elas.

Module vardef_coh_elas.
Definition name : std_string := lit "coh_elas".
Definition group := ScatterBase.
End vardef_coh_elas.

Module vardef_sans.
Definition name : std_string := lit "sans".
Definition group := ScatterBase.
End vardef_sans.

(** ** Cfg-variable definitions holding strings *)

Module vardef_inelas.
Definition name : std_string := lit "inelas".
Definition group := ScatterBase.
Definition default_value : std_string := lit "auto".
Definition sv_0 : std_string := lit "0".
Definition str2val (sv : std_string) : Result std_string :=
  if empty sv
     || negb (StrView.contains_only sv (lit "abcdefghijklmnopqrstuvwxyz_0123456789"))
  then NCRYSTAL_THROW2
         (lit "invalid value specified for parameter " ++ name ++ lit ": "
          ++ dq ++ sv ++ dq)
  else if isOneOf sv [lit "none"; lit "0"; lit "sterile"; lit "false"]
  then Ok sv_0
  else Ok sv.
End vardef_inelas.

(** Book-keeping class, tracking requests for a specific named factory
    and/or exclusion of a list of named factories. *)
Module FactNameRequest.

Record t : Type := mk {
  m_specific : std_string;
  m_excluded : list std_string
}.

(** The default-constructed object. *)
Definition default : t := mk [] [].

Definition hasSpecificRequest (r : t) : bool := negb (empty (m_specific r)).
Definition specificRequest (r : t) : std_string := m_specific r.

(** Linear search through [m_excluded]. *)
Fixpoint excludes_loop (excluded : list std_string) (fn : std_string) : bool :=
  match excluded with
  | [] => false
  | e :: rest => if streq fn e then true else excludes_loop rest fn
  end.

Definition excludes (r : t) (fn : std_string) : bool :=
  excludes_loop (m_excluded r) fn.

Definition withAdditionalExclude (r : t) (factname : std_string) : t :=
  if excludes r factname then r
  else mk (m_specific r) (m_excluded r ++ [factname]).

Definition withNoSpecificRequest (r : t) : t :=
  mk [] (m_excluded r).

(** Modelled from the spec: [to_string] is declared in the class but
    defined outside the files at hand.  The canonical text is the specific
    name, if any, followed by the excluded names in insertion order, each
    with a [!] in front, the entries separated by [@]
    ("name", "!excl1", "name@!excl1@!excl2"). *)
Definition to_string (r : t) : std_string :=
  fold_left
    (fun res e => (if empty res then res else res ++ lit "@") ++ lit "!" ++ e)
    (m_excluded r) (m_specific r).

(** Semantic equality: same specific request, same set of excluded names. *)
Definition same_request (r1 r2 : t) : Prop :=
  m_specific r1 = m_specific r2
  /\ forall fn, excludes r1 fn = excludes r2 fn.

Module Parser.

(** The validity flag computed by the loop of [checkValidFactoryName]. *)
Definition name_ok (svn : std_string) : bool :=
  fold_left
    (fun ok e =>
       if negb (isAlphaNumeric e) && negb (Ascii.eqb e "_"%char)
          && negb (Ascii.eqb e "-"%char)
       then false else ok)
    svn (negb (empty svn)).

Definition checkValidFactoryName (svn : std_string) : Result unit :=
  if negb (name_ok svn)
  then NCRYSTAL_THROW2 (lit "Not a valid factory name: " ++ dq ++ svn ++ dq)
  else Ok tt.

Definition more_than_one_msg (first second : std_string) : std_string :=
  lit "Contains more than one (non-negated) entry (" ++ dq ++ first ++ dq
  ++ lit " and " ++ dq ++ second ++ dq ++ lit ".".

Definition required_and_excluded_msg (specific : std_string) : std_string :=
  lit "The factory " ++ dq ++ specific ++ dq
  ++ lit " is both specified as being simultaneously required and excluded.".

(** Body of the loop over the entries. *)
Definition doParse_entry (res : t) (e : std_string) : Result t :=
  if StrView.startswith e "!"%char then
    let exlname := StrView.trimmed (StrView.substr e 1) in
    checkValidFactoryName exlname ;;;
    Ok (if negb (excludes res exlname)
        then mk (m_specific res) (m_excluded res ++ [exlname])
        else res)
  else
    checkValidFactoryName e ;;;
    if negb (empty (m_specific res))
    then NCRYSTAL_THROW2 (more_than_one_msg (m_specific res) e)
    else Ok (mk e (m_excluded res)).

Definition doParse (sv : std_string) : Result t :=
  res <- for_each doParse_entry (StrView.splitTrimmedNoEmpty "@"%char sv) default ;;
  if negb (empty (m_specific res)) && excludes res (m_specific res)
  then NCRYSTAL_THROW2 (required_and_excluded_msg (m_specific res))
  else Ok res.

End Parser.

End FactNameRequest.

(** The three factory variables share their [str2val]: parse, render, and
    re-throw a parse error with the name of the variable in front. *)
Definition factory_str2val (name sv : std_string) : Result std_string :=
  match FactNameRequest.Parser.doParse sv with
  | Ok r => Ok (FactNameRequest.to_string r)
  | Throw err =>
      NCRYSTAL_THROW2 (lit "Syntax error in " ++ name
                       ++ lit " parameter. Error is: " ++ what err)
  end.

Module vardef_infofactory.
Definition name : std_string := lit "infofactory".
Definition group := Info.
Definition default_value : std_string := [].
Definition str2val : std_string -> Result std_string := factory_str2val name.
End vardef_infofactory.

Module vardef_scatfactory.
Definition name : std_string := lit "scatfactory".
Definition group := ScatterBase.
Definition default_value : std_string := [].
Definition str2val : std_string -> Result std_string := factory_str2val name.
End vardef_scatfactory.

Module vardef_absnfactory.
Definition name : std_string := lit "absnfactory".
Definition group := Absorption.
Definition default_value : std_string := [].
Definition str2val : std_string -> Result std_string := factory_str2val name.
End vardef_absnfactory.

Module vardef_atomdb.
Definition name : std_string := lit "atomdb".
Definition group := Info.
Definition default_value : std_string := [].
Definition nodefaults : std_string := lit "nodefaults".

(** The words of a line: [:] replaced by a space, then cut at whitespace. *)
Definition line_parts (line_sv : std_string) : list std_string :=
  StrView.split (strreplace line_sv ":"%char " "%char).

(** Body of the loop over the lines.  [validateAtomDBLine] is defined
    outside the files at hand (NCAtomUtils.hh) and is an argument: it
    returns normally or throws [BadInput]. *)
Definition str2val_line (validateAtomDBLine : list std_string -> Result unit)
  (result : std_string) (line_sv : std_string) : Result std_string :=
  let parts := line_parts line_sv in
  if match parts with [] => true | _ :: _ => false end then Ok result
  else
    let part_joined := joinstr parts (lit ":") in
    match validateAtomDBLine (split2 part_joined ":"%char) with
    | Throw e =>
        NCRYSTAL_THROW2
          (lit "Invalid entry in " ++ name ++ lit " cfg parameter in the line: "
           ++ dq ++ part_joined ++ dq ++ lit ". Error is: " ++ what e)
    | Ok _ =>
        if streq part_joined nodefaults && negb (empty result)
        then NCRYSTAL_THROW2
               (lit "Invalid entry in " ++ name ++ lit " cfg parameter ("
                ++ dq ++ nodefaults ++ dq ++ lit " must be the first line).")
        else Ok ((if negb (empty result) then result ++ lit "@" else result)
                 ++ part_joined)
    end.

Definition str2val (validateAtomDBLine : list std_string -> Result unit)
  (sv : std_string) : Result std_string :=
  for_each (str2val_line validateAtomDBLine)
           (StrView.splitTrimmedNoEmpty "@"%char sv) [].

(** The normalised non-empty lines of an input, in order: what the loop
    above computes as [part_joined], one per line that has words. *)
Definition normalised_lines (sv : std_string) : list std_string :=
  map (fun parts => joinstr parts (lit ":"))
      (filter (fun parts => match parts with [] => false | _ :: _ => true end)
              (map line_parts (StrView.splitTrimmedNoEmpty "@"%char sv))).

(** A normalised line is accepted by the line grammar. *)
Definition line_valid (validateAtomDBLine : list std_string -> Result unit)
  (line : std_string) : Prop :=
  exists u, validateAtomDBLine (split2 line ":"%char) = Ok u.

End vardef_atomdb.

(** ** The table of variables *)

Record VarInfo : Type := Build_VarInfo {
  vi_name : std_string;
  vi_groupId : VarGroupId
}.

Definition varlist : list VarInfo := [
  Build_VarInfo vardef_absnfactory.name vardef_absnfactory.group;
  Build_VarInfo vardef_atomdb.name vardef_atomdb.group;
  Build_VarInfo vardef_coh_elas.name vardef_coh_elas.group;
  Build_VarInfo vardef_dcutoff.name vardef_dcutoff.group;
  Build_VarInfo vardef_dcutoffup.name vardef_dcutoffup.group;
  Build_VarInfo vardef_dir1.name vardef_dir1.group;
  Build_VarInfo vardef_dir2.name vardef_dir2.group;
  Build_VarInfo vardef_dirtol.name vardef_dirtol.group;
  Build_VarInfo vardef_incoh_elas.name vardef_incoh_elas.group;
  Build_VarInfo vardef_inelas.name vardef_inelas.group;
  Build_VarInfo vardef_infofactory.name vardef_infofactory.group;
  Build_VarInfo vardef_lcaxis.name vardef_lcaxis.group;
  Build_VarInfo vardef_lcmode.name vardef_lcmode.group;
  Build_VarInfo vardef_mos.name vardef_mos.group;
  Build_VarInfo vardef_mosprec.name vardef_mosprec.group;
  Build_VarInfo vardef_sans.name vardef_sans.group;
  Build_VarInfo vardef_scatfactory.name vardef_scatfactory.group;
  Build_VarInfo vardef_sccutoff.name vardef_sccutoff.group;
  Build_VarInfo vardef_temp.name vardef_temp.group;
  Build_VarInfo vardef_vdoslux.name vardef_vdoslux.group
].

(** Modelled from the spec: [constexpr_name2Idx] is defined outside the
    files at hand (NCCfgTypes.hh).  It maps a name to the position of the
    entry of the table carrying that name ("deterministic mapping from a
    variable's textual name to a dense integer identifier", "used as array
    index into the registry"), and finds nothing for a name that is not in
    the table ("lookup(name) -> VariableIdentifier | not-found"). *)
Fixpoint constexpr_name2Idx_from (list : list VarInfo) (name : std_string)
  (idx : nat) : option nat :=
  match list with
  | [] => None
  | vi :: rest =>
      if streq (vi_name vi) name then Some idx
      else constexpr_name2Idx_from rest name (S idx)
  end.

Definition constexpr_name2Idx (list : list VarInfo) (name : std_string) : option nat :=
  constexpr_name2Idx_from list name 0.

Definition constexpr_varName2Idx (name : std_string) : option nat :=
  constexpr_name2Idx varlist name.

(** [enum class VarId : std::uint32_t]: a value of the enumeration is its
    underlying index. *)
Record VarId : Type := static_cast_VarId { enumAsInt : nat }.

Definition constexpr_varIdFromName (name : std_string) : option VarId :=
  option_map static_cast_VarId (constexpr_varName2Idx name).

(** Modelled from the spec: the run-time lookup [varIdFromName] is only
    declared in the files at hand; it agrees with the compile-time one
    ("usable at compile time and at run time for lookup from arbitrary
    user-typed strings"). *)
Definition varIdFromName (name : std_string) : option VarId :=
  constexpr_varIdFromName name.

(** [varlist[enumAsInt(varid)]]; the source does not guard the index, and
    [None] stands for an access past the end of the table. *)
Definition varInfo (varid : VarId) : option VarInfo :=
  nth_error varlist (enumAsInt varid).

Definition varName (varid : VarId) : option std_string :=
  option_map vi_name (varInfo varid).

Definition varGroup (varid : VarId) : option VarGroupId :=
  option_map vi_groupId (varInfo varid).

(** The names of the enumerators of [VarId], in the order of the source. *)
Definition VarId_enumerators : list std_string := [
  lit "temp"; lit "sccutoff"; lit "dcutoff"; lit "dcutoffup"; lit "dirtol";
  lit "mosprec"; lit "vdoslux"; lit "lcmode"; lit "lcaxis"; lit "mos";
  lit "dir1"; lit "dir2"; lit "sans"; lit "incoh_elas"; lit "inelas";
  lit "coh_elas"; lit "atomdb"; lit "infofactory"; lit "scatfactory";
  lit "absnfactory"
].

(** ** Stream output of [OrientDir] (NCTypes.cc) *)

(** An output stream is the text written to it so far. *)
Definition ostream : Type := std_string.

Definition put (os : ostream) (s : std_string) : ostream := os ++ s.

Infix "<<" := put (at level 50, left associativity).

Record ThreeVector : Type := Build_ThreeVector {
  vx : double; vy : double; vz : double
}.

(** [v[i]] for [i] in 0..2. *)
Definition at_ (v : ThreeVector) (i : nat) : double :=
  match i with
  | 0 => vx v
  | 1 => vy v
  | _ => vz v
  end.

Definition CrystalAxis : Type := ThreeVector.
Definition HKLPoint : Type := ThreeVector.
Definition LabAxis : Type := ThreeVector.

(** [Variant<CrystalAxis,HKLPoint>], which may also hold nothing. *)
Inductive CrystalVariant : Type :=
| has_CrystalAxis (v : CrystalAxis)
| has_HKLPoint (v : HKLPoint)
| has_nothing.

Record OrientDir : Type := Build_OrientDir {
  crystal : CrystalVariant;
  lab : LabAxis
}.

(** [operator<<( std::ostream&, const OrientDir& )].  [fmt] formats a
    [double]; it is defined outside the files at hand and is an argument. *)
Definition put_OrientDir (fmt : double -> std_string) (os : ostream)
  (od : OrientDir) : ostream :=
  let os :=
    match crystal od with
    | has_CrystalAxis v =>
        os << lit "@crys:" << fmt (at_ v 0) << lit "," << fmt (at_ v 1)
           << lit "," << fmt (at_ v 2)
    | has_HKLPoint v =>
        os << lit "@crys_hkl:" << fmt (at_ v 0) << lit "," << fmt (at_ v 1)
           << lit "," << fmt (at_ v 2)
    | has_nothing => os << lit "@crys:<MISSING>"
    end in
  os << lit "@lab:" << fmt (at_ (lab od) 0) << lit "," << fmt (at_ (lab od) 1)
     << lit "," << fmt (at_ (lab od) 2).

(** The three components of a vector as written to a stream. *)
Definition components (fmt : double -> std_string) (v : ThreeVector) : std_string :=
  fmt (vx v) ++ lit "," ++ fmt (vy v) ++ lit "," ++ fmt (vz v).

(** ** Stream output of [DensityState] (NCTypes.cc) *)

Module DensityState.

Inductive Type_ : Type := SCALEFACTOR | DENSITY | NUMBERDENSITY.

Record t : Type := mk { type : Type_; value : double }.

End DensityState.

(** [operator<<( std::ostream&, const DensityState& )] *)
Definition put_DensityState (fmt : double -> std_string) (os : ostream)
  (ds : DensityState.t) : ostream :=
  match DensityState.type ds with
  | DensityState.SCALEFACTOR => os << fmt (DensityState.value ds) << lit "x"
  | DensityState.DENSITY => os << fmt (DensityState.value ds) << lit "gcm3"
  | DensityState.NUMBERDENSITY =>
      os << fmt (DensityState.value ds) << lit "perAa3"
  end.

(** ** Vocabulary of the statements *)

(** The entries of a factory request: the trimmed non-empty pieces between
    [@] signs, exactly what the loop of [doParse] runs over. *)
Definition request_entries (sv : std_string) : list std_string :=
  StrView.splitTrimmedNoEmpty "@"%char sv.

Definition is_excluded_entry (e : std_string) : bool := StrView.startswith e "!"%char.

(** The non-excluded ("required") entries, in order. *)
Definition required_entries (sv : std_string) : list std_string :=
  filter (fun e => negb (is_excluded_entry e)) (request_entries sv).

(** The factory name an entry carries. *)
Definition entry_name (e : std_string) : std_string :=
  if is_excluded_entry e then StrView.trimmed (StrView.substr e 1) else e.

(** The characters of a factory name: [A-Za-z0-9_-]. *)
Definition factory_name_char (c : ascii) : bool :=
  isAlphaNumeric c || Ascii.eqb c "_"%char || Ascii.eqb c "-"%char.

Definition valid_factory_name (s : std_string) : bool :=
  negb (empty s) && forallb factory_name_char s.

(** Lowercase letters, digits and the underscore. *)
Definition lower_digit_underscore (c : ascii) : bool :=
  let n := N_of_ascii c in
  ((97 <=? n) && (n <=? 122) || (48 <=? n) && (n <=? 57) || (n =? 95))%N.

Definition inelas_disable_spellings : list std_string :=
  [lit "none"; lit "0"; lit "sterile"; lit "false"].

(** In an atomdb line, [:] counts as whitespace. *)
Definition line_space (c : ascii) : bool :=
  StrView.isWhiteSpace c || Ascii.eqb c ":"%char.

(** The words of a line, cut at whitespace and [:] alike. *)
Definition line_words (l : std_string) : list std_string :=
  filter StrView.nonempty (StrView.split_by line_space l).

(** Two lines that differ only in the use of [:] versus whitespace, or in
    the amount of leading, trailing or internal whitespace: the least
    equivalence that lets one
    - exchange a spacing character ([:] or whitespace) for another,
    - put one more spacing character next to an existing one,
    - drop a spacing character at the start or at the end of the line. *)
Inductive same_up_to_spacing : std_string -> std_string -> Prop :=
| sp_refl l : same_up_to_spacing l l
| sp_sym l1 l2 : same_up_to_spacing l1 l2 -> same_up_to_spacing l2 l1
| sp_trans l1 l2 l3 :
    same_up_to_spacing l1 l2 -> same_up_to_spacing l2 l3 ->
    same_up_to_spacing l1 l3
| sp_exchange a c c' b :
    line_space c = true -> line_space c' = true ->
    same_up_to_spacing (a ++ c :: b) (a ++ c' :: b)
| sp_more a c c' b :
    line_space c = true -> line_space c' = true ->
    same_up_to_spacing (a ++ c :: b) (a ++ c :: c' :: b)
| sp_leading c l :
    line_space c = true -> same_up_to_spacing (c :: l) l
| sp_trailing c l :
    line_space c = true -> same_up_to_spacing (l ++ [c]) l.

(** What the loop of [vardef_atomdb.str2val] does with one normalised
    line. *)
Definition atomdb_accumulate (validateAtomDBLine : list std_string -> Result unit)
  (result : std_string) (part_joined : std_string) : Result std_string :=
  match validateAtomDBLine (split2 part_joined ":"%char) with
  | Throw e =>
      NCRYSTAL_THROW2
        (lit "Invalid entry in " ++ vardef_atomdb.name
         ++ lit " cfg parameter in the line: "
         ++ dq ++ part_joined ++ dq ++ lit ". Error is: " ++ what e)
  | Ok _ =>
      if streq part_joined vardef_atomdb.nodefaults && negb (empty result)
      then NCRYSTAL_THROW2
             (lit "Invalid entry in " ++ vardef_atomdb.name ++ lit " cfg parameter ("
              ++ dq ++ vardef_atomdb.nodefaults ++ dq ++ lit " must be the first line).")
      else Ok ((if negb (empty result) then result ++ lit "@" else result)
               ++ part_joined)
  end.

(** A line validator for examples: every non-empty list of words passes. *)
Definition accept_all_lines (words : list std_string) : Result unit :=
  match words with
  | [] => NCRYSTAL_THROW2 (lit "empty line")
  | _ :: _ => Ok tt
  end.

(** The invariant of [FactNameRequest]: a specific request is never among
    the excluded names. *)
Definition specific_not_excluded (r : FactNameRequest.t) : Prop :=
  FactNameRequest.hasSpecificRequest r = true ->
  FactNameRequest.excludes r (FactNameRequest.specificRequest r) = false.

(** A validator that changes nothing: it hands back its argument or throws. *)
Definition unchanged_or_throws {A} (validate : A -> Result A) : Prop :=
  forall value, validate value = Ok value \/ throws (validate value).

(** What a request is made of once parsed: a specific request that is empty
    or a factory name, and excluded factory names without repetition. *)
Definition well_formed (r : FactNameRequest.t) : Prop :=
  (FactNameRequest.m_specific r = []
   \/ valid_factory_name (FactNameRequest.m_specific r) = true)
  /\ Forall (fun e => valid_factory_name e = true) (FactNameRequest.m_excluded r)
  /\ NoDup (FactNameRequest.m_excluded r).

(** An excluded name as an entry of the text. *)
Definition excluded_entry (e : std_string) : std_string := lit "!" ++ e.

(** The entries of the canonical text of a request. *)
Definition rendered_entries (r : FactNameRequest.t) : list std_string :=
  (if empty (FactNameRequest.m_specific r) then []
   else [FactNameRequest.m_specific r])
  ++ map excluded_entry (FactNameRequest.m_excluded r).

(** The factory names excluded by the entries of a request text, in
    order and with repetitions. *)
Definition excluded_names (sv : std_string) : list std_string :=
  map entry_name (filter is_excluded_entry (request_entries sv)).

(** A character that carries nothing in a factory request: whitespace
    or [@]. *)
Definition request_blank (c : ascii) : bool :=
  StrView.isWhiteSpace c || Ascii.eqb "@"%char c.

(** A character that carries nothing in an atomdb value: whitespace, [:]
    or [@]. *)
Definition atomdb_blank (c : ascii) : bool :=
  line_space c || Ascii.eqb "@"%char c.

(** The lines a run of [vardef_atomdb.str2val] accepts: each passes the
    line validator, and nodefaults occurs at most as the first of them. *)
Definition atomdb_lines_ok (validateAtomDBLine : list std_string -> Result unit)
  (lines : list std_string) : Prop :=
  Forall (vardef_atomdb.line_valid validateAtomDBLine) lines
  /\ ~ In vardef_atomdb.nodefaults (tl lines).

(** The order of [strcmp] on strings. *)
Fixpoint str_ltb (a b : std_string) : bool :=
  match a, b with
  | _, [] => false
  | [], _ :: _ => true
  | x :: a', y :: b' =>
      (N_of_ascii x <? N_of_ascii y)%N || (Ascii.eqb x y && str_ltb a' b')
  end.

(** binary64 [kPi], for examples: the double nearest to pi. *)
Definition example_kPi : double := S754_finite false 7074237752028440 (-51).

(** ** Properties *)

(** *** Strings and loops *)

Lemma streq_eq (a b : std_string) : streq a b = true <-> a = b.
Proof.
  revert b; induction a as [|x a IH]; intros [|y b]; simpl; split;
    try discriminate; try reflexivity.
  - intros H. apply andb_true_iff in H as [Hx Hs].
    apply Ascii.eqb_eq in Hx. apply IH in Hs. congruence.
  - intros H. injection H as -> ->.
    rewrite Ascii.eqb_refl. simpl. apply IH. reflexivity.
Qed.

Lemma streq_refl (a : std_string) : streq a a = true.
Proof. apply streq_eq. reflexivity. Qed.

Lemma streq_neq (a b : std_string) : streq a b = false <-> a <> b.
Proof.
  split.
  - intros H E. apply streq_eq in E. congruence.
  - intros H. destruct (streq a b) eqn:E; [|reflexivity].
    apply streq_eq in E. contradiction.
Qed.

Lemma empty_true (s : std_string) : empty s = true <-> s = [].
Proof. destruct s; simpl; split; congruence. Qed.

Lemma empty_false (s : std_string) : empty s = false <-> s <> [].
Proof. destruct s; simpl; split; congruence. Qed.

Lemma throws_Throw {A} (e : Error) : throws (@Throw A e).
Proof. destruct e as [w]. exists w. reflexivity. Qed.

Lemma Throw_BadInput_inj {A} (a b : std_string) :
  @Throw A (BadInput a) = Throw (BadInput b) -> a = b.
Proof. intros H. injection H as H. exact H. Qed.

Lemma for_each_app {S E} (body : S -> E -> Result S) (l1 l2 : list E) (st : S) :
  for_each body (l1 ++ l2) st = st' <- for_each body l1 st ;; for_each body l2 st'.
Proof.
  revert st; induction l1 as [|e l1 IH]; intros st; simpl; [reflexivity|].
  destruct (body st e); simpl; auto.
Qed.

(** A loop that preserves an invariant as long as it does not throw. *)
Lemma for_each_invariant {S E} (body : S -> E -> Result S) (I : S -> Prop)
  (range : list E) :
  (forall st e st', In e range -> I st -> body st e = Ok st' -> I st') ->
  forall st st', I st -> for_each body range st = Ok st' -> I st'.
Proof.
  induction range as [|e rest IH]; intros Hbody st st' Hst Hrun; simpl in Hrun.
  - injection Hrun as <-. exact Hst.
  - destruct (body st e) as [st1|err] eqn:Hstep; simpl in Hrun; [|discriminate].
    apply (IH (fun s x s' Hin => Hbody s x s' (or_intror Hin)) st1 st'); auto.
    apply (Hbody st e st1); simpl; auto.
Qed.

(** *** Characters *)

Ltac all_chars c := destruct c as [[] [] [] [] [] [] [] []].

Lemma factory_name_char_plain (c : ascii) :
  factory_name_char c = true ->
  StrView.isWhiteSpace c = false /\ c <> "@"%char /\ c <> "!"%char.
Proof. all_chars c; vm_compute; intros H; repeat split; congruence. Qed.

Lemma inelas_charset (c : ascii) :
  existsb (Ascii.eqb c) (lit "abcdefghijklmnopqrstuvwxyz_0123456789")
  = lower_digit_underscore c.
Proof. all_chars c; vm_compute; reflexivity. Qed.

Lemma line_space_plain (c : ascii) :
  line_space c = true -> Ascii.eqb "@"%char c = false.
Proof. all_chars c; vm_compute; congruence. Qed.

Lemma whitespace_line_space (c : ascii) :
  StrView.isWhiteSpace c = true -> line_space c = true.
Proof. unfold line_space. intros ->. reflexivity. Qed.

(** *** Cutting and trimming *)

Lemma split_by_not_nil (p : ascii -> bool) (s : std_string) :
  StrView.split_by p s <> [].
Proof.
  destruct s as [|c t]; simpl; [discriminate|].
  destruct (p c); [discriminate|].
  destruct (StrView.split_by p t); discriminate.
Qed.

(** Cutting commutes with concatenation at a cut point. *)
Lemma split_by_app (p : ascii -> bool) (a b : std_string) (c : ascii) :
  p c = true ->
  StrView.split_by p (a ++ c :: b) = StrView.split_by p a ++ StrView.split_by p b.
Proof.
  intros Hc. induction a as [|x a IH]; simpl.
  - rewrite Hc. reflexivity.
  - rewrite IH. destruct (p x); [reflexivity|].
    pose proof (split_by_not_nil p a) as Hne.
    destruct (StrView.split_by p a) as [|piece pieces]; [contradiction|].
    reflexivity.
Qed.

Lemma split_by_no_cut (p : ascii -> bool) (s : std_string) :
  forallb (fun c => negb (p c)) s = true -> StrView.split_by p s = [s].
Proof.
  induction s as [|c t IH]; simpl; [reflexivity|].
  intros H. apply andb_true_iff in H as [Hc Ht].
  apply negb_true_iff in Hc. rewrite Hc, (IH Ht). reflexivity.
Qed.

Lemma ltrimmed_decompose (s : std_string) :
  exists w, s = w ++ StrView.ltrimmed s
            /\ forallb StrView.isWhiteSpace w = true.
Proof.
  induction s as [|c t [w [E Hw]]]; simpl.
  - exists []. auto.
  - destruct (StrView.isWhiteSpace c) eqn:Hc.
    + exists (c :: w). simpl. rewrite Hc, Hw. split; [congruence|reflexivity].
    + exists []. auto.
Qed.

Lemma rtrimmed_decompose (s : std_string) :
  exists w, s = StrView.rtrimmed s ++ w
            /\ forallb StrView.isWhiteSpace w = true.
Proof.
  unfold StrView.rtrimmed.
  destruct (ltrimmed_decompose (rev s)) as [w [E Hw]].
  exists (rev w). split.
  - rewrite <- rev_app_distr, <- E, rev_involutive. reflexivity.
  - rewrite forallb_forall in *. intros x Hx. apply Hw, in_rev, Hx.
Qed.

Lemma ltrimmed_id (s : std_string) :
  forallb (fun c => negb (StrView.isWhiteSpace c)) s = true ->
  StrView.ltrimmed s = s.
Proof.
  destruct s as [|c t]; simpl; [reflexivity|].
  intros H. apply andb_true_iff in H as [Hc _].
  apply negb_true_iff in Hc. rewrite Hc. reflexivity.
Qed.

Lemma forallb_rev {A} (f : A -> bool) (l : list A) :
  forallb f l = true -> forallb f (rev l) = true.
Proof.
  rewrite !forallb_forall. intros H x Hx. apply H, in_rev, Hx.
Qed.

(** A string without whitespace is its own trimmed form. *)
Lemma trimmed_id (s : std_string) :
  forallb (fun c => negb (StrView.isWhiteSpace c)) s = true ->
  StrView.trimmed s = s.
Proof.
  intros H. unfold StrView.trimmed, StrView.rtrimmed.
  rewrite (ltrimmed_id s H), (ltrimmed_id (rev s) (forallb_rev _ _ H)).
  apply rev_involutive.
Qed.

(** *** Comparison of doubles *)

Lemma SFcompare_swap (x y : double) :
  SFcompare y x = option_map CompOpp (SFcompare x y).
Proof.
  destruct x as [sx|sx| |sx mx ex], y as [sy|sy| |sy my ey]; simpl;
    try reflexivity; try (destruct sx; reflexivity);
    try (destruct sy; reflexivity);
    try (destruct sx, sy; reflexivity).
  fold (Pos.compare mx my). fold (Pos.compare my mx).
  rewrite (Z.compare_antisym ex ey), (Pos.compare_antisym mx my).
  destruct sx, sy; simpl; try reflexivity;
    destruct (ex ?= ey)%Z; simpl; try reflexivity;
    destruct (mx ?= my)%positive; reflexivity.
Qed.

(** [a < b] excludes [b <= a]. *)
Lemma dbl_lt_not_ge (a b : double) :
  (a < b)%dbl = true -> (a >= b)%dbl = false.
Proof.
  unfold dbl_lt, dbl_ge, SFltb, SFleb. rewrite (SFcompare_swap a b).
  destruct (SFcompare a b) as [[]|]; simpl; congruence.
Qed.

(** [a > b] excludes [a <= b]. *)
Lemma dbl_gt_not_le (a b : double) :
  (a > b)%dbl = true -> (a <= b)%dbl = false.
Proof.
  unfold dbl_gt, dbl_le, SFltb, SFleb. rewrite (SFcompare_swap a b).
  destruct (SFcompare a b) as [[]|]; simpl; congruence.
Qed.

Lemma dbl_lt_le (a b : double) : (a < b)%dbl = true -> (a <= b)%dbl = true.
Proof.
  unfold dbl_lt, dbl_le, SFltb, SFleb.
  destruct (SFcompare a b) as [[]|]; simpl; congruence.
Qed.

Lemma dbl_gt_ge (a b : double) : (a > b)%dbl = true -> (a >= b)%dbl = true.
Proof. unfold dbl_gt, dbl_ge. apply dbl_lt_le. Qed.

(** The literals are binary64 data, and they are the data nearest to the
    decimal numbers written in the source: the distance to the decimal
    number is at most half the distance to the neighbouring data. *)
Lemma literals_are_binary64 :
  forallb is_binary64
    [Lit.d0_0; Lit.neg_d1_0; Lit.d0_001; Lit.d1e6; Lit.d1e5; Lit.d1e_7;
     Lit.d1e_1; Lit.d0_0009; Lit.d1e6_next] = true.
Proof. vm_compute. reflexivity. Qed.

Lemma literal_0_001_nearest :
  fraction_of Lit.d0_001 = Some (4611686018427388, 2 ^ 62)%Z
  /\ (2 * Z.abs (1000 * 4611686018427388 - 2 ^ 62) <= 1000)%Z.
Proof. vm_compute. split; [reflexivity | discriminate]. Qed.

Lemma literal_1e6_exact :
  fraction_of Lit.d1e6 = Some (8589934592000000, 2 ^ 33)%Z
  /\ (8589934592000000 = 1000000 * 2 ^ 33)%Z.
Proof. vm_compute. split; reflexivity. Qed.

Lemma literal_0_0009_nearest :
  fraction_of Lit.d0_0009 = Some (8301034833169298, 2 ^ 63)%Z
  /\ (2 * Z.abs (10000 * 8301034833169298 - 9 * 2 ^ 63) <= 10000)%Z.
Proof. vm_compute. split; [reflexivity | discriminate]. Qed.

(** *** Numeric validators *)

Ltac validator_cases :=
  match goal with
  | |- context [if ?c then _ else _] => destruct c
  end.

Lemma temp_unchanged_or_throws show :
  unchanged_or_throws (vardef_temp.value_validate show).
Proof.
  intros v. unfold vardef_temp.value_validate.
  validator_cases; [right; apply throws_Throw | left; reflexivity].
Qed.

Lemma dcutoffup_unchanged_or_throws :
  unchanged_or_throws vardef_dcutoffup.value_validate.
Proof.
  intros v. unfold vardef_dcutoffup.value_validate.
  validator_cases; [right; apply throws_Throw | left; reflexivity].
Qed.

Lemma sccutoff_unchanged_or_throws :
  unchanged_or_throws vardef_sccutoff.value_validate.
Proof.
  intros v. unfold vardef_sccutoff.value_validate.
  validator_cases; [right; apply throws_Throw | left; reflexivity].
Qed.

Lemma mos_unchanged_or_throws kPiHalf :
  unchanged_or_throws (vardef_mos.value_validate kPiHalf).
Proof.
  intros v. unfold vardef_mos.value_validate.
  validator_cases; [right; apply throws_Throw | left; reflexivity].
Qed.

Lemma dirtol_unchanged_or_throws kPi :
  unchanged_or_throws (vardef_dirtol.value_validate kPi).
Proof.
  intros v. unfold vardef_dirtol.value_validate.
  validator_cases; [right; apply throws_Throw | left; reflexivity].
Qed.

Lemma mosprec_unchanged_or_throws :
  unchanged_or_throws vardef_mosprec.value_validate.
Proof.
  intros v. unfold vardef_mosprec.value_validate.
  validator_cases; [right; apply throws_Throw | left; reflexivity].
Qed.

Lemma vdoslux_unchanged_or_throws :
  unchanged_or_throws vardef_vdoslux.value_validate.
Proof.
  intros v. unfold vardef_vdoslux.value_validate.
  validator_cases; [right; apply throws_Throw | left; reflexivity].
Qed.

Lemma lcmode_unchanged_or_throws :
  unchanged_or_throws vardef_lcmode.value_validate.
Proof.
  intros v. unfold vardef_lcmode.value_validate.
  validator_cases; [right; apply throws_Throw | left; reflexivity].
Qed.

(** C2. The validator of dcutoff maps the inputs -1 and 0 to the stored
    value 0 and hands every other accepted input back unchanged; no other
    validator of the file remaps anything: each hands its input back
    unchanged or throws (so none turns -1 into 0). *)
Theorem dcutoff_is_the_only_remapping
  (show_temperature : double -> std_string) (kPi kPiHalf : double) :
  vardef_dcutoff.value_validate Lit.neg_d1_0 = Ok Lit.d0_0
  /\ vardef_dcutoff.value_validate Lit.d0_0 = Ok Lit.d0_0
  /\ (forall value,
        if ((value == Lit.neg_d1_0) || (value == Lit.d0_0))%dbl
        then vardef_dcutoff.value_validate value = Ok Lit.d0_0
        else vardef_dcutoff.value_validate value = Ok value
             \/ throws (vardef_dcutoff.value_validate value))
  /\ unchanged_or_throws (vardef_temp.value_validate show_temperature)
  /\ unchanged_or_throws vardef_dcutoffup.value_validate
  /\ unchanged_or_throws vardef_sccutoff.value_validate
  /\ unchanged_or_throws (vardef_mos.value_validate kPiHalf)
  /\ unchanged_or_throws (vardef_dirtol.value_validate kPi)
  /\ unchanged_or_throws vardef_mosprec.value_validate
  /\ unchanged_or_throws vardef_vdoslux.value_validate
  /\ unchanged_or_throws vardef_lcmode.value_validate
  /\ vardef_temp.value_validate show_temperature Lit.neg_d1_0 = Ok Lit.neg_d1_0
  /\ vardef_lcmode.value_validate (-1) = Ok (-1)%Z.
Proof.
  split; [reflexivity|]. split; [reflexivity|]. split.
  - intros value. unfold vardef_dcutoff.value_validate.
    destruct ((value == Lit.neg_d1_0) || (value == Lit.d0_0))%dbl; [reflexivity|].
    repeat validator_cases;
      first [right; apply throws_Throw | left; reflexivity].
  - repeat split;
      auto using temp_unchanged_or_throws, dcutoffup_unchanged_or_throws,
        sccutoff_unchanged_or_throws, mos_unchanged_or_throws,
        dirtol_unchanged_or_throws, mosprec_unchanged_or_throws,
        vdoslux_unchanged_or_throws, lcmode_unchanged_or_throws.
Qed.

(** C3, as the code has it. The validator of temp accepts every value of the
    closed range from 0.001 to 1e6, hence every value strictly inside and
    both bounds; it also accepts the special value -1; every other value
    strictly outside the range is rejected with BadInput, among them 0.0009
    and the double following 1e6. *)
Theorem temp_range (show_temperature : double -> std_string) (value : double) :
  ((value > Lit.d0_001)%dbl = true -> (value < Lit.d1e6)%dbl = true ->
   vardef_temp.value_validate show_temperature value = Ok value)
  /\ vardef_temp.value_validate show_temperature Lit.d0_001 = Ok Lit.d0_001
  /\ vardef_temp.value_validate show_temperature Lit.d1e6 = Ok Lit.d1e6
  /\ ((value == Lit.neg_d1_0)%dbl = true ->
      vardef_temp.value_validate show_temperature value = Ok value)
  /\ ((value < Lit.d0_001)%dbl = true \/ (value > Lit.d1e6)%dbl = true ->
      (value == Lit.neg_d1_0)%dbl = false ->
      throws (vardef_temp.value_validate show_temperature value))
  /\ throws (vardef_temp.value_validate show_temperature Lit.d0_0009)
  /\ throws (vardef_temp.value_validate show_temperature Lit.d1e6_next).
Proof.
  unfold vardef_temp.value_validate.
  split; [|split; [reflexivity|split; [reflexivity|split; [|split]]]].
  - intros Hlo Hhi.
    rewrite (dbl_gt_ge _ _ Hlo), (dbl_lt_le _ _ Hhi), orb_true_r. reflexivity.
  - intros ->. reflexivity.
  - intros Hout Hne. rewrite Hne. simpl.
    destruct Hout as [Hlo|Hhi].
    + rewrite (dbl_lt_not_ge _ _ Hlo). apply throws_Throw.
    + rewrite (dbl_gt_not_le _ _ Hhi), andb_false_r. apply throws_Throw.
  - split; apply throws_Throw.
Qed.

Lemma temp_range_witness :
  vardef_temp.value_validate (fun _ => lit "1K")
    (S754_finite false 4503599627370496 (-52))
  = Ok (S754_finite false 4503599627370496 (-52))
  /\ throws (vardef_temp.value_validate (fun _ => lit "0K") Lit.d0_0).
Proof.
  split.
  - apply (proj1 (temp_range (fun _ => lit "1K")
                    (S754_finite false 4503599627370496 (-52))));
      reflexivity.
  - apply (proj1 (proj2 (proj2 (proj2 (proj2
             (temp_range (fun _ => lit "0K") Lit.d0_0))))));
      [left|]; reflexivity.
Defined.

(** C3, counterexample to the claim as written: -1 lies strictly below the
    range and is accepted. *)
Lemma temp_accepts_minus_one :
  (Lit.neg_d1_0 < Lit.d0_001)%dbl = true
  /\ vardef_temp.value_validate (fun _ => lit "-1K") Lit.neg_d1_0
     = Ok Lit.neg_d1_0.
Proof. split; reflexivity. Qed.

(** *** Factory requests: the pieces of the parser *)

Import FactNameRequest.

Lemma excludes_loop_In (excluded : list std_string) (fn : std_string) :
  excludes_loop excluded fn = true <-> In fn excluded.
Proof.
  induction excluded as [|e rest IH]; simpl.
  - split; [discriminate | contradiction].
  - destruct (streq fn e) eqn:E.
    + apply streq_eq in E. split; auto.
    + apply streq_neq in E. rewrite IH. split; [auto|].
      intros [H|H]; [congruence | exact H].
Qed.

Lemma excludes_loop_not_In (excluded : list std_string) (fn : std_string) :
  excludes_loop excluded fn = false <-> ~ In fn excluded.
Proof.
  rewrite <- excludes_loop_In.
  destruct (excludes_loop excluded fn); split; congruence.
Qed.

Lemma name_ok_loop (svn : std_string) (ok : bool) :
  fold_left
    (fun ok e =>
       if negb (isAlphaNumeric e) && negb (Ascii.eqb e "_"%char)
          && negb (Ascii.eqb e "-"%char)
       then false else ok) svn ok
  = ok && forallb factory_name_char svn.
Proof.
  revert ok; induction svn as [|c t IH]; intros ok; simpl.
  - rewrite andb_true_r. reflexivity.
  - rewrite IH. unfold factory_name_char.
    destruct (isAlphaNumeric c), (Ascii.eqb c "_"), (Ascii.eqb c "-"), ok;
      reflexivity.
Qed.

(** The loop of [checkValidFactoryName] computes the factory-name grammar. *)
Lemma name_ok_valid (svn : std_string) :
  Parser.name_ok svn = valid_factory_name svn.
Proof. apply name_ok_loop. Qed.

Lemma checkValidFactoryName_valid (svn : std_string) :
  valid_factory_name svn = true -> Parser.checkValidFactoryName svn = Ok tt.
Proof.
  intros H. unfold Parser.checkValidFactoryName.
  rewrite name_ok_valid, H. reflexivity.
Qed.

Lemma checkValidFactoryName_invalid (svn : std_string) :
  valid_factory_name svn = false ->
  Parser.checkValidFactoryName svn
  = Throw (BadInput (lit "Not a valid factory name: " ++ dq ++ svn ++ dq)).
Proof.
  intros H. unfold Parser.checkValidFactoryName.
  rewrite name_ok_valid, H. reflexivity.
Qed.

Lemma valid_factory_name_plain (s : std_string) :
  valid_factory_name s = true ->
  s <> []
  /\ forallb (fun c => negb (StrView.isWhiteSpace c)) s = true
  /\ forallb (fun c => negb (Ascii.eqb "@"%char c)) s = true
  /\ StrView.startswith s "!"%char = false.
Proof.
  unfold valid_factory_name. intros H.
  apply andb_true_iff in H as [Hne Hall].
  apply negb_true_iff, empty_false in Hne.
  rewrite forallb_forall in Hall.
  repeat split; [exact Hne | | |].
  - apply forallb_forall. intros c Hc.
    destruct (factory_name_char_plain c (Hall c Hc)) as (-> & _). reflexivity.
  - apply forallb_forall. intros c Hc.
    destruct (factory_name_char_plain c (Hall c Hc)) as (_ & Hat & _).
    apply negb_true_iff, Ascii.eqb_neq. congruence.
  - destruct s as [|c t]; [reflexivity|]. simpl.
    destruct (factory_name_char_plain c (Hall c (or_introl eq_refl)))
      as (_ & _ & Hbang).
    apply Ascii.eqb_neq. exact Hbang.
Qed.

(** What one turn of the loop of [doParse] does, by kind of entry. *)
Lemma doParse_entry_excluded (res : t) (e : std_string) :
  is_excluded_entry e = true ->
  Parser.doParse_entry res e
  = if valid_factory_name (entry_name e)
    then Ok (if excludes res (entry_name e) then res
             else mk (m_specific res) (m_excluded res ++ [entry_name e]))
    else Throw (BadInput (lit "Not a valid factory name: "
                          ++ dq ++ entry_name e ++ dq)).
Proof.
  intros He. unfold Parser.doParse_entry, entry_name.
  unfold is_excluded_entry in *. rewrite He.
  destruct (valid_factory_name _) eqn:Hv.
  - rewrite (checkValidFactoryName_valid _ Hv). simpl.
    destruct (excludes res _); reflexivity.
  - rewrite (checkValidFactoryName_invalid _ Hv). reflexivity.
Qed.

Lemma doParse_entry_required (res : t) (e : std_string) :
  is_excluded_entry e = false ->
  Parser.doParse_entry res e
  = if valid_factory_name e
    then if empty (m_specific res) then Ok (mk e (m_excluded res))
         else Throw (BadInput (Parser.more_than_one_msg (m_specific res) e))
    else Throw (BadInput (lit "Not a valid factory name: " ++ dq ++ e ++ dq)).
Proof.
  intros He. unfold Parser.doParse_entry.
  unfold is_excluded_entry in He. rewrite He.
  destruct (valid_factory_name e) eqn:Hv.
  - rewrite (checkValidFactoryName_valid _ Hv). simpl.
    destruct (empty (m_specific res)); reflexivity.
  - rewrite (checkValidFactoryName_invalid _ Hv). reflexivity.
Qed.

(** *** The invariant of factory requests (C1) *)

Lemma doParse_specific_not_excluded (sv : std_string) (r : t) :
  Parser.doParse sv = Ok r -> specific_not_excluded r.
Proof.
  unfold Parser.doParse. destruct (for_each _ _ _) as [res|err]; simpl;
    [|discriminate].
  destruct (negb (empty (m_specific res)) && excludes res (m_specific res))
    eqn:Hcheck; [discriminate|].
  intros H. injection H as <-.
  unfold specific_not_excluded, hasSpecificRequest, specificRequest.
  intros Hspec. rewrite Hspec in Hcheck. exact Hcheck.
Qed.

Lemma withNoSpecificRequest_specific_not_excluded (r : t) :
  hasSpecificRequest (withNoSpecificRequest r) = false
  /\ specific_not_excluded (withNoSpecificRequest r).
Proof.
  split; [reflexivity|]. unfold specific_not_excluded. simpl. discriminate.
Qed.

Lemma withAdditionalExclude_other_name (r : t) (factname : std_string) :
  specific_not_excluded r -> factname <> specificRequest r ->
  specific_not_excluded (withAdditionalExclude r factname).
Proof.
  unfold specific_not_excluded, withAdditionalExclude, hasSpecificRequest,
    specificRequest, excludes.
  intros Hinv Hne. destruct (excludes_loop (m_excluded r) factname); [exact Hinv|].
  simpl. intros Hspec. apply excludes_loop_not_In. intros Hin.
  apply in_app_or in Hin as [Hin|[Heq|[]]].
  - apply excludes_loop_In in Hin. rewrite (Hinv Hspec) in Hin. discriminate.
  - congruence.
Qed.

(** C1, at the input where the code departs from it. Parsing "a" gives a
    request for the factory a; [withAdditionalExclude] with the same name
    appends it to the excluded names without looking at the specific
    request, and the object returned both requires and excludes a. *)
Theorem withAdditionalExclude_excludes_specific :
  exists r,
    Parser.doParse (lit "a") = Ok r
    /\ specific_not_excluded r
    /\ hasSpecificRequest (withAdditionalExclude r (lit "a")) = true
    /\ specificRequest (withAdditionalExclude r (lit "a")) = lit "a"
    /\ excludes (withAdditionalExclude r (lit "a"))
                (specificRequest (withAdditionalExclude r (lit "a"))) = true
    /\ ~ specific_not_excluded (withAdditionalExclude r (lit "a")).
Proof.
  exists (mk (lit "a") []).
  split; [reflexivity|]. split; [intros _; reflexivity|].
  split; [reflexivity|]. split; [reflexivity|]. split; [reflexivity|].
  intros H. specialize (H eq_refl). discriminate.
Qed.

(** *** More than one required entry (C5) *)

Lemma more_than_one_msg_head (x y : std_string) :
  hd_error (Parser.more_than_one_msg x y) = Some "C"%char.
Proof. reflexivity. Qed.

Lemma not_valid_is_not_more_than_one (s x y : std_string) :
  lit "Not a valid factory name: " ++ dq ++ s ++ dq
  <> Parser.more_than_one_msg x y.
Proof. intros H. apply (f_equal (@hd_error ascii)) in H. discriminate. Qed.

Lemma required_and_excluded_is_not_more_than_one (s x y : std_string) :
  Parser.required_and_excluded_msg s <> Parser.more_than_one_msg x y.
Proof. intros H. apply (f_equal (@hd_error ascii)) in H. discriminate. Qed.

(** A loop that ends normally has met at most one required entry, and none
    if a specific request was there from the start. *)
Lemma loop_Ok_bounds_required (l : list std_string) (res0 res : t) :
  for_each Parser.doParse_entry l res0 = Ok res ->
  List.length (filter (fun e => negb (is_excluded_entry e)) l)
  + (if empty (m_specific res0) then 0 else 1) <= 1.
Proof.
  revert res0; induction l as [|e l IH]; intros res0 Hrun; simpl in *.
  - destruct (empty (m_specific res0)); lia.
  - destruct (is_excluded_entry e) eqn:He; simpl.
    + rewrite (doParse_entry_excluded res0 e He) in Hrun.
      destruct (valid_factory_name (entry_name e)); [|discriminate].
      simpl in Hrun. apply IH in Hrun.
      destruct (excludes res0 (entry_name e)); exact Hrun.
    + rewrite (doParse_entry_required res0 e He) in Hrun.
      destruct (valid_factory_name e) eqn:Hv; [|discriminate].
      destruct (empty (m_specific res0)); [|discriminate].
      simpl in Hrun. apply IH in Hrun. simpl in Hrun.
      destruct (valid_factory_name_plain e Hv) as (Hne & _).
      apply empty_false in Hne. rewrite Hne in Hrun. lia.
Qed.

(** The error about more than one entry is only thrown at a required entry
    met while a specific request is already recorded. *)
Lemma loop_more_than_one_needs_two (l : list std_string) (res0 : t)
  (x y : std_string) :
  for_each Parser.doParse_entry l res0
  = Throw (BadInput (Parser.more_than_one_msg x y)) ->
  2 <= List.length (filter (fun e => negb (is_excluded_entry e)) l)
       + (if empty (m_specific res0) then 0 else 1).
Proof.
  revert res0; induction l as [|e l IH]; intros res0 Hrun; simpl in *.
  - discriminate.
  - destruct (is_excluded_entry e) eqn:He; simpl.
    + rewrite (doParse_entry_excluded res0 e He) in Hrun.
      destruct (valid_factory_name (entry_name e)); simpl in Hrun.
      * apply IH in Hrun. destruct (excludes res0 (entry_name e)); exact Hrun.
      * apply Throw_BadInput_inj in Hrun.
        exfalso. exact (not_valid_is_not_more_than_one _ _ _ Hrun).
    + rewrite (doParse_entry_required res0 e He) in Hrun.
      destruct (valid_factory_name e) eqn:Hv; simpl in Hrun.
      * destruct (empty (m_specific res0)); simpl in Hrun.
        -- apply IH in Hrun. simpl in Hrun.
           destruct (empty e); lia.
        -- lia.
      * apply Throw_BadInput_inj in Hrun.
        exfalso. exact (not_valid_is_not_more_than_one _ _ _ Hrun).
Qed.

(** A run of valid excluded entries passes and leaves the specific request
    as it was. *)
Lemma loop_excluded_run (l : list std_string) (res0 : t) :
  forallb is_excluded_entry l = true ->
  forallb (fun e => valid_factory_name (entry_name e)) l = true ->
  exists res, for_each Parser.doParse_entry l res0 = Ok res
              /\ m_specific res = m_specific res0.
Proof.
  revert res0; induction l as [|e l IH]; intros res0 Hex Hval; simpl in *.
  - eauto.
  - apply andb_true_iff in Hex as [He Hex].
    apply andb_true_iff in Hval as [Hv Hval].
    rewrite (doParse_entry_excluded res0 e He), Hv. simpl.
    destruct (IH (if excludes res0 (entry_name e) then res0
                  else mk (m_specific res0) (m_excluded res0 ++ [entry_name e]))
                Hex Hval) as (res & Hrun & Hspec).
    exists res. split; [exact Hrun|].
    rewrite Hspec. destruct (excludes res0 (entry_name e)); reflexivity.
Qed.

Lemma entry_name_required (e : std_string) :
  is_excluded_entry e = false -> entry_name e = e.
Proof. unfold entry_name. intros ->. reflexivity. Qed.

(** The loop stops at the first entry with an invalid name, when the
    entries before it have valid names and at most one of them is
    required. *)
Lemma loop_first_invalid (pre post : list std_string) (bad : std_string)
  (res0 : t) :
  forallb (fun e => valid_factory_name (entry_name e)) pre = true ->
  List.length (filter (fun e => negb (is_excluded_entry e)) pre)
  + (if empty (m_specific res0) then 0 else 1) <= 1 ->
  valid_factory_name (entry_name bad) = false ->
  for_each Parser.doParse_entry (pre ++ bad :: post) res0
  = Throw (BadInput (lit "Not a valid factory name: "
                     ++ dq ++ entry_name bad ++ dq)).
Proof.
  revert res0; induction pre as [|e pre IH]; intros res0 Hval Hcount Hbad;
    simpl in *.
  - destruct (is_excluded_entry bad) eqn:Hkind.
    + rewrite (doParse_entry_excluded res0 bad Hkind), Hbad. reflexivity.
    + rewrite (doParse_entry_required res0 bad Hkind).
      rewrite (entry_name_required bad Hkind) in *. rewrite Hbad. reflexivity.
  - apply andb_true_iff in Hval as [Hv Hval].
    destruct (is_excluded_entry e) eqn:He; simpl in Hcount.
    + rewrite (doParse_entry_excluded res0 e He), Hv. simpl.
      apply IH; [exact Hval | | exact Hbad].
      destruct (excludes res0 (entry_name e)); exact Hcount.
    + rewrite (entry_name_required e He) in Hv.
      rewrite (doParse_entry_required res0 e He), Hv.
      destruct (empty (m_specific res0)); [|lia]. simpl.
      apply IH; [exact Hval | | exact Hbad]. simpl. destruct (empty e); lia.
Qed.

(** The loop stops at the second required entry, when the entries up to it
    have valid names. *)
Lemma loop_second_required (pre mid post : list std_string)
  (first second : std_string) :
  forallb is_excluded_entry (pre ++ mid) = true ->
  is_excluded_entry first = false ->
  is_excluded_entry second = false ->
  forallb (fun e => valid_factory_name (entry_name e))
          (pre ++ first :: mid ++ [second]) = true ->
  for_each Parser.doParse_entry (pre ++ first :: mid ++ second :: post) default
  = Throw (BadInput (Parser.more_than_one_msg first second)).
Proof.
  intros Hex Hfirst Hsecond Hval.
  rewrite forallb_app in Hex. apply andb_true_iff in Hex as [Hpre Hmid].
  rewrite forallb_app in Hval. apply andb_true_iff in Hval as [Hvpre Hval].
  simpl in Hval. apply andb_true_iff in Hval as [Hvfirst Hval].
  rewrite forallb_app in Hval. apply andb_true_iff in Hval as [Hvmid Hvsecond].
  simpl in Hvsecond. rewrite andb_true_r in Hvsecond.
  rewrite (entry_name_required _ Hfirst) in Hvfirst.
  rewrite (entry_name_required _ Hsecond) in Hvsecond.
  destruct (loop_excluded_run pre default Hpre Hvpre) as (res1 & Hrun1 & Hspec1).
  rewrite for_each_app, Hrun1. simpl.
  rewrite (doParse_entry_required res1 first Hfirst), Hvfirst, Hspec1. simpl.
  destruct (loop_excluded_run mid (mk first (m_excluded res1)) Hmid Hvmid)
    as (res2 & Hrun2 & Hspec2).
  rewrite for_each_app, Hrun2. simpl.
  rewrite (doParse_entry_required res2 second Hsecond), Hvsecond, Hspec2.
  simpl.
  destruct (valid_factory_name_plain first Hvfirst) as (Hne & _).
  apply empty_false in Hne. rewrite Hne. reflexivity.
Qed.

Lemma filter_required_excluded (l : list std_string) :
  forallb is_excluded_entry l = true ->
  filter (fun e => negb (is_excluded_entry e)) l = [].
Proof.
  induction l as [|e l IH]; simpl; [reflexivity|].
  intros H. apply andb_true_iff in H as [He Hl]. rewrite He. simpl. exact (IH Hl).
Qed.

Lemma first_required_split (l : list std_string) :
  1 <= List.length (filter (fun e => negb (is_excluded_entry e)) l) ->
  exists pre x post,
    l = pre ++ x :: post
    /\ forallb is_excluded_entry pre = true
    /\ is_excluded_entry x = false.
Proof.
  induction l as [|e l IH]; simpl; [lia|].
  destruct (is_excluded_entry e) eqn:He; simpl.
  - intros H. destruct (IH H) as (pre & x & post & -> & Hpre & Hx).
    exists (e :: pre), x, post. simpl. rewrite He, Hpre. auto.
  - intros _. exists [], e, l. auto.
Qed.

(** A list of entries with two required ones, cut at the first two. *)
Lemma two_required_split (l : list std_string) :
  2 <= List.length (filter (fun e => negb (is_excluded_entry e)) l) ->
  exists pre first mid second post,
    l = pre ++ first :: mid ++ second :: post
    /\ forallb is_excluded_entry (pre ++ mid) = true
    /\ is_excluded_entry first = false
    /\ is_excluded_entry second = false.
Proof.
  intros Htwo.
  destruct (first_required_split l) as (pre & first & rest & -> & Hpre & Hfirst);
    [lia|].
  rewrite filter_app, (filter_required_excluded pre Hpre) in Htwo.
  simpl in Htwo. rewrite Hfirst in Htwo. simpl in Htwo.
  destruct (first_required_split rest) as (mid & second & post & -> & Hmid & Hsecond);
    [lia|].
  exists pre, first, mid, second, post.
  rewrite forallb_app, Hpre, Hmid. auto.
Qed.

(** The first element of a list that fails a test. *)
Lemma forallb_first_false {A} (f : A -> bool) (l : list A) :
  forallb f l = false ->
  exists l1 x l2, l = l1 ++ x :: l2 /\ forallb f l1 = true /\ f x = false.
Proof.
  induction l as [|a l IH]; simpl; [discriminate|].
  destruct (f a) eqn:Ha; simpl.
  - intros H. destruct (IH H) as (l1 & x & l2 & -> & Hl1 & Hx).
    exists (a :: l1), x, l2. simpl. rewrite Ha, Hl1. auto.
  - intros _. exists [], a, l. auto.
Qed.

(** C5, as the code has it. An input with two or more required entries is
    always rejected with BadInput.  The message names the first two required
    entries when every entry up to and including the second required one
    carries a valid factory name; otherwise the error is the one about an
    invalid factory name, quoting the name carried by the first entry whose
    name is invalid.  With at most one required entry the error about more
    than one entry is never raised. *)
Theorem doParse_second_required_entry (sv : std_string) :
  (2 <= List.length (required_entries sv) -> throws (Parser.doParse sv))
  /\ (forall pre first mid second post,
        request_entries sv = pre ++ first :: mid ++ second :: post ->
        forallb is_excluded_entry (pre ++ mid) = true ->
        is_excluded_entry first = false ->
        is_excluded_entry second = false ->
        forallb (fun e => valid_factory_name (entry_name e))
                (pre ++ first :: mid ++ [second]) = true ->
        Parser.doParse sv
        = Throw (BadInput (Parser.more_than_one_msg first second)))
  /\ (List.length (required_entries sv) <= 1 ->
      forall x y,
        Parser.doParse sv <> Throw (BadInput (Parser.more_than_one_msg x y)))
  /\ (forall pre bad post,
        request_entries sv = pre ++ bad :: post ->
        forallb (fun e => valid_factory_name (entry_name e)) pre = true ->
        List.length (filter (fun e => negb (is_excluded_entry e)) pre) <= 1 ->
        valid_factory_name (entry_name bad) = false ->
        Parser.doParse sv
        = Throw (BadInput (lit "Not a valid factory name: "
                           ++ dq ++ entry_name bad ++ dq)))
  /\ (2 <= List.length (required_entries sv) ->
      (exists pre first mid second post,
          request_entries sv = pre ++ first :: mid ++ second :: post
          /\ forallb is_excluded_entry (pre ++ mid) = true
          /\ is_excluded_entry first = false
          /\ is_excluded_entry second = false
          /\ forallb (fun e => valid_factory_name (entry_name e))
                     (pre ++ first :: mid ++ [second]) = true
          /\ Parser.doParse sv
             = Throw (BadInput (Parser.more_than_one_msg first second)))
      \/ (exists before bad after,
             request_entries sv = before ++ bad :: after
             /\ forallb (fun e => valid_factory_name (entry_name e)) before = true
             /\ valid_factory_name (entry_name bad) = false
             /\ List.length (filter (fun e => negb (is_excluded_entry e))
                                    (before ++ [bad])) <= 2
             /\ Parser.doParse sv
                = Throw (BadInput (lit "Not a valid factory name: "
                                   ++ dq ++ entry_name bad ++ dq)))).
Proof.
  assert (Hfirst_invalid : forall pre bad post,
    request_entries sv = pre ++ bad :: post ->
    forallb (fun e => valid_factory_name (entry_name e)) pre = true ->
    List.length (filter (fun e => negb (is_excluded_entry e)) pre) <= 1 ->
    valid_factory_name (entry_name bad) = false ->
    Parser.doParse sv
    = Throw (BadInput (lit "Not a valid factory name: "
                       ++ dq ++ entry_name bad ++ dq))).
  { intros pre bad post Hsplit Hval Hcount Hbad.
    unfold Parser.doParse. fold (request_entries sv). rewrite Hsplit.
    rewrite (loop_first_invalid pre post bad default Hval); [reflexivity | | exact Hbad].
    simpl. lia. }
  assert (Hsecond_required : forall pre first mid second post,
    request_entries sv = pre ++ first :: mid ++ second :: post ->
    forallb is_excluded_entry (pre ++ mid) = true ->
    is_excluded_entry first = false ->
    is_excluded_entry second = false ->
    forallb (fun e => valid_factory_name (entry_name e))
            (pre ++ first :: mid ++ [second]) = true ->
    Parser.doParse sv
    = Throw (BadInput (Parser.more_than_one_msg first second))).
  { intros pre first mid second post Hsplit Hex Hfirst Hsecond Hval.
    unfold Parser.doParse. fold (request_entries sv). rewrite Hsplit.
    rewrite (loop_second_required pre mid post first second Hex Hfirst Hsecond Hval).
    reflexivity. }
  split; [|split; [exact Hsecond_required|split; [|split; [exact Hfirst_invalid|]]]].
  - unfold required_entries, request_entries, Parser.doParse. intros Htwo.
    destruct (for_each _ _ _) as [res|err] eqn:Hrun; simpl.
    + apply loop_Ok_bounds_required in Hrun. simpl in Hrun. lia.
    + apply throws_Throw.
  - unfold required_entries, request_entries, Parser.doParse.
    intros Hone x y Hthrow.
    destruct (for_each _ _ _) as [res|err] eqn:Hrun; simpl in Hthrow.
    + destruct (negb (empty (m_specific res)) && excludes res (m_specific res));
        [|discriminate].
      apply Throw_BadInput_inj in Hthrow.
      exact (required_and_excluded_is_not_more_than_one _ _ _ Hthrow).
    + injection Hthrow as ->.
      apply loop_more_than_one_needs_two in Hrun. simpl in Hrun. lia.
  - intros Htwo. unfold required_entries in Htwo.
    destruct (two_required_split (request_entries sv) Htwo)
      as (pre & first & mid & second & post & Hsplit & Hex & Hfirst & Hsecond).
    pose proof Hex as Hex'.
    rewrite forallb_app in Hex'. apply andb_true_iff in Hex' as [Hpre Hmid].
    assert (Hreq_before :
              filter (fun e => negb (is_excluded_entry e)) (pre ++ first :: mid)
              = [first]).
    { rewrite filter_app, (filter_required_excluded pre Hpre). simpl.
      rewrite Hfirst, (filter_required_excluded mid Hmid). reflexivity. }
    destruct (forallb (fun e => valid_factory_name (entry_name e))
                      (pre ++ first :: mid)) eqn:Hbefore.
    + destruct (valid_factory_name (entry_name second)) eqn:Hvsecond.
      * left. exists pre, first, mid, second, post.
        assert (Hval : forallb (fun e => valid_factory_name (entry_name e))
                         (pre ++ first :: mid ++ [second]) = true).
        { change (pre ++ first :: mid ++ [second])
            with (pre ++ (first :: mid) ++ [second]).
          rewrite app_assoc, forallb_app, Hbefore. simpl.
          rewrite Hvsecond. reflexivity. }
        repeat split; try assumption.
        exact (Hsecond_required pre first mid second post
                 Hsplit Hex Hfirst Hsecond Hval).
      * right. exists (pre ++ first :: mid), second, post.
        assert (Hsplit' : request_entries sv = (pre ++ first :: mid) ++ second :: post).
        { rewrite Hsplit, <- app_assoc. reflexivity. }
        split; [exact Hsplit'|]. split; [exact Hbefore|].
        split; [exact Hvsecond|]. split.
        -- rewrite filter_app, Hreq_before. simpl. rewrite Hsecond. simpl. lia.
        -- apply (Hfirst_invalid _ _ _ Hsplit' Hbefore); [|exact Hvsecond].
           rewrite Hreq_before. simpl. lia.
    + destruct (forallb_first_false _ _ Hbefore)
        as (p1 & bad & p2 & Hcut & Hp1 & Hbad).
      assert (Hcount : List.length (filter (fun e => negb (is_excluded_entry e))
                                      (p1 ++ [bad])) <= 1).
      { assert (Hlen : List.length (filter (fun e => negb (is_excluded_entry e))
                                      (pre ++ first :: mid)) = 1)
          by (rewrite Hreq_before; reflexivity).
        rewrite Hcut in Hlen.
        change (p1 ++ bad :: p2) with (p1 ++ [bad] ++ p2) in Hlen.
        rewrite app_assoc, filter_app, length_app in Hlen. lia. }
      right. exists p1, bad, (p2 ++ second :: post).
      assert (Hsplit' : request_entries sv = p1 ++ bad :: p2 ++ second :: post).
      { rewrite Hsplit.
        change (pre ++ first :: mid ++ second :: post)
          with (pre ++ (first :: mid) ++ second :: post).
        rewrite app_assoc.
        change (pre ++ first :: mid) with (pre ++ first :: mid).
        rewrite Hcut, <- app_assoc. reflexivity. }
      split; [exact Hsplit'|]. split; [exact Hp1|]. split; [exact Hbad|].
      split; [lia|].
      apply (Hfirst_invalid _ _ _ Hsplit' Hp1); [|exact Hbad].
      rewrite filter_app, length_app in Hcount. lia.
Qed.

Lemma doParse_second_required_entry_witness :
  throws (Parser.doParse (lit "a@b"))
  /\ Parser.doParse (lit "x@!y@z")
     = Throw (BadInput (Parser.more_than_one_msg (lit "x") (lit "z")))
  /\ Parser.doParse (lit "a@!b")
     <> Throw (BadInput (Parser.more_than_one_msg (lit "a") (lit "b")))
  /\ Parser.doParse (lit "a@! b?@c")
     = Throw (BadInput (lit "Not a valid factory name: " ++ dq ++ lit "b?" ++ dq)).
Proof.
  split; [|split; [|split]].
  - apply (proj1 (doParse_second_required_entry (lit "a@b"))).
    vm_compute. lia.
  - apply (proj1 (proj2 (doParse_second_required_entry (lit "x@!y@z")))
             [] (lit "x") [lit "!y"] (lit "z") []); reflexivity.
  - apply (proj1 (proj2 (proj2 (doParse_second_required_entry (lit "a@!b"))))).
    vm_compute. lia.
  - apply (proj1 (proj2 (proj2 (proj2
             (doParse_second_required_entry (lit "a@! b?@c")))))
             [lit "a"] (lit "! b?") [lit "c"]).
    + reflexivity.
    + reflexivity.
    + vm_compute. lia.
    + reflexivity.
Defined.

(** C5, counterexample to the claim as written: "a@?" has two required
    entries, and the error is the one about the invalid name "?", which says
    nothing of the entry "a". *)
Lemma two_required_entries_invalid_name :
  required_entries (lit "a@?") = [lit "a"; lit "?"]
  /\ Parser.doParse (lit "a@?")
     = Throw (BadInput (lit "Not a valid factory name: " ++ dq ++ lit "?" ++ dq))
  /\ forall x y,
       Parser.doParse (lit "a@?")
       <> Throw (BadInput (Parser.more_than_one_msg x y)).
Proof.
  split; [reflexivity|]. split; [reflexivity|].
  intros x y H. change (Parser.doParse (lit "a@?"))
    with (@Throw t (BadInput (lit "Not a valid factory name: " ++ dq ++ lit "?" ++ dq)))
    in H.
  apply Throw_BadInput_inj in H. exact (not_valid_is_not_more_than_one _ _ _ H).
Qed.

(** *** Rendering a request and parsing it again (C7) *)

Lemma doParse_entry_well_formed (res res' : t) (e : std_string) :
  well_formed res -> Parser.doParse_entry res e = Ok res' -> well_formed res'.
Proof.
  intros (Hspec & Hex & Hnd) Hstep.
  destruct (is_excluded_entry e) eqn:He.
  - rewrite (doParse_entry_excluded res e He) in Hstep.
    destruct (valid_factory_name (entry_name e)) eqn:Hv; [|discriminate].
    injection Hstep as <-.
    destruct (excludes res (entry_name e)) eqn:Hin; [repeat split; assumption|].
    apply excludes_loop_not_In in Hin.
    repeat split; simpl; [exact Hspec | |].
    + apply Forall_app. split; [exact Hex|]. constructor; [exact Hv|constructor].
    + apply NoDup_rev in Hnd.
      rewrite <- (rev_involutive (m_excluded res ++ [entry_name e])).
      apply NoDup_rev. rewrite rev_app_distr. simpl.
      constructor; [|exact Hnd]. intros Hrev. apply Hin, in_rev, Hrev.
  - rewrite (doParse_entry_required res e He) in Hstep.
    destruct (valid_factory_name e) eqn:Hv; [|discriminate].
    destruct (empty (m_specific res)); [|discriminate].
    injection Hstep as <-. repeat split; simpl; auto.
Qed.

Lemma doParse_well_formed (sv : std_string) (r : t) :
  Parser.doParse sv = Ok r -> well_formed r.
Proof.
  unfold Parser.doParse.
  destruct (for_each _ _ _) as [res|err] eqn:Hrun; simpl; [|discriminate].
  destruct (negb (empty (m_specific res)) && excludes res (m_specific res));
    [discriminate|].
  intros H. injection H as <-.
  apply (for_each_invariant Parser.doParse_entry well_formed
           (StrView.splitTrimmedNoEmpty "@" sv)
           (fun st e st' _ Hst Hstep => doParse_entry_well_formed st st' e Hst Hstep)
           default res); [|exact Hrun].
  repeat split; simpl; [left; reflexivity | constructor | constructor].
Qed.

Lemma to_string_loop (excluded : list std_string) (acc : std_string) :
  fold_left
    (fun res e => (if empty res then res else res ++ lit "@") ++ lit "!" ++ e)
    excluded acc
  = joinstr ((if empty acc then [] else [acc]) ++ map excluded_entry excluded)
            (lit "@").
Proof.
  revert acc; induction excluded as [|e excluded IH]; intros acc; simpl.
  - destruct acc; reflexivity.
  - rewrite IH.
    destruct acc as [|c acc]; simpl empty; cbv iota.
    + reflexivity.
    + simpl. destruct (map excluded_entry excluded); simpl;
        rewrite <- !app_assoc; reflexivity.
Qed.

(** The canonical text is made of its entries with [@] in between. *)
Lemma to_string_joinstr (r : t) :
  to_string r = joinstr (rendered_entries r) (lit "@").
Proof. apply to_string_loop. Qed.

Lemma split_by_joinstr (parts : list std_string) :
  parts <> [] ->
  Forall (fun p => forallb (fun c => negb (Ascii.eqb "@"%char c)) p = true) parts ->
  StrView.split_by (Ascii.eqb "@"%char) (joinstr parts (lit "@")) = parts.
Proof.
  induction parts as [|p rest IH]; [congruence|].
  intros _ Hall. inversion Hall as [|? ? Hp Hrest]; subst.
  destruct rest as [|q rest].
  - simpl. apply split_by_no_cut. exact Hp.
  - change (joinstr (p :: q :: rest) (lit "@"))
      with (p ++ "@"%char :: joinstr (q :: rest) (lit "@")).
    rewrite split_by_app by reflexivity.
    rewrite (split_by_no_cut _ p Hp), IH by (auto; discriminate).
    reflexivity.
Qed.

Lemma excluded_entry_plain (e : std_string) :
  valid_factory_name e = true ->
  excluded_entry e <> []
  /\ forallb (fun c => negb (StrView.isWhiteSpace c)) (excluded_entry e) = true
  /\ forallb (fun c => negb (Ascii.eqb "@"%char c)) (excluded_entry e) = true
  /\ is_excluded_entry (excluded_entry e) = true
  /\ entry_name (excluded_entry e) = e.
Proof.
  intros Hv. destruct (valid_factory_name_plain e Hv) as (_ & Hws & Hat & _).
  repeat split; try discriminate.
  - simpl. exact Hws.
  - simpl. exact Hat.
  - unfold entry_name. simpl. apply trimmed_id. exact Hws.
Qed.

(** The entries of the canonical text are found again by the parser. *)
Lemma request_entries_to_string (r : t) :
  well_formed r -> request_entries (to_string r) = rendered_entries r.
Proof.
  intros (Hspec & Hex & _).
  assert (Hplain : Forall (fun p =>
            p <> []
            /\ forallb (fun c => negb (StrView.isWhiteSpace c)) p = true
            /\ forallb (fun c => negb (Ascii.eqb "@"%char c)) p = true)
            (rendered_entries r)).
  { unfold rendered_entries. apply Forall_app. split.
    - destruct (empty (m_specific r)) eqn:Hem; [constructor|].
      destruct Hspec as [Hspec|Hspec].
      + apply empty_false in Hem. contradiction.
      + destruct (valid_factory_name_plain _ Hspec) as (H1 & H2 & H3 & _).
        constructor; [auto | constructor].
    - apply Forall_map. eapply Forall_impl; [|exact Hex]. simpl.
      intros e Hv. destruct (excluded_entry_plain e Hv) as (H1 & H2 & H3 & _).
      auto. }
  unfold request_entries, StrView.splitTrimmedNoEmpty.
  rewrite to_string_joinstr.
  destruct (rendered_entries r) as [|p rest] eqn:Hre; [reflexivity|].
  rewrite split_by_joinstr;
    [| discriminate
     | eapply Forall_impl; [|exact Hplain]; simpl; intros a (_ & _ & H); exact H].
  clear Hre. induction Hplain as [|a l (Hne & Hws & _) _ IH]; [reflexivity|].
  simpl. rewrite (trimmed_id a Hws).
  unfold StrView.nonempty at 1. apply empty_false in Hne. rewrite Hne. simpl.
  f_equal. exact IH.
Qed.

Lemma loop_rendered_excluded (excl2 excl1 : list std_string) (spec : std_string) :
  Forall (fun e => valid_factory_name e = true) excl2 ->
  NoDup (excl1 ++ excl2) ->
  for_each Parser.doParse_entry (map excluded_entry excl2) (mk spec excl1)
  = Ok (mk spec (excl1 ++ excl2)).
Proof.
  revert excl1; induction excl2 as [|e excl2 IH]; intros excl1 Hval Hnd; simpl.
  - rewrite app_nil_r. reflexivity.
  - inversion Hval as [|? ? Hv Hval']; subst.
    destruct (excluded_entry_plain e Hv) as (_ & _ & _ & Hex & Hname).
    rewrite (doParse_entry_excluded _ _ Hex), Hname, Hv.
    assert (Hnot : excludes (mk spec excl1) e = false).
    { apply excludes_loop_not_In. intros Hin.
      apply NoDup_remove_2 in Hnd. apply Hnd, in_or_app. left. exact Hin. }
    rewrite Hnot. simpl.
    rewrite IH; [| exact Hval' | rewrite <- app_assoc; exact Hnd].
    rewrite <- app_assoc. reflexivity.
Qed.

(** Parsing the canonical text of a well-formed request that keeps the
    invariant gives the request back. *)
Lemma doParse_to_string (r : t) :
  well_formed r -> specific_not_excluded r ->
  Parser.doParse (to_string r) = Ok r.
Proof.
  intros Hwf Hinv. unfold Parser.doParse.
  fold (request_entries (to_string r)).
  rewrite (request_entries_to_string r Hwf).
  destruct Hwf as (Hspec & Hex & Hnd).
  destruct r as [spec excl]. unfold rendered_entries. simpl in *.
  assert (Hloop : for_each Parser.doParse_entry
                    ((if empty spec then [] else [spec]) ++ map excluded_entry excl)
                    default
                  = Ok (mk spec excl)).
  { destruct (empty spec) eqn:Hem.
    - apply empty_true in Hem. subst spec. simpl.
      apply (loop_rendered_excluded excl [] [] Hex Hnd).
    - destruct Hspec as [Hspec|Hspec];
        [apply empty_false in Hem; contradiction|].
      destruct (valid_factory_name_plain spec Hspec) as (_ & _ & _ & Hreq).
      simpl. rewrite (doParse_entry_required default spec Hreq), Hspec. simpl.
      apply (loop_rendered_excluded excl [] spec Hex Hnd). }
  rewrite Hloop. simpl.
  unfold specific_not_excluded, hasSpecificRequest, specificRequest in Hinv.
  simpl in Hinv.
  destruct (empty spec); simpl; [reflexivity|].
  rewrite (Hinv eq_refl). reflexivity.
Qed.

(** C7. When [doParse] accepts a text, rendering the request with
    [to_string] and parsing the rendered text is accepted too and gives a
    request semantically equal to the first: the same specific request and
    the same excluded names. *)
Theorem doParse_to_string_doParse (sv : std_string) (r : t) :
  Parser.doParse sv = Ok r ->
  exists r', Parser.doParse (to_string r) = Ok r' /\ same_request r r'.
Proof.
  intros Hparse. exists r. split.
  - apply doParse_to_string.
    + exact (doParse_well_formed sv r Hparse).
    + exact (doParse_specific_not_excluded sv r Hparse).
  - split; reflexivity.
Qed.

Lemma doParse_to_string_doParse_witness :
  exists r',
    Parser.doParse (to_string (mk (lit "a") [lit "b"; lit "c"])) = Ok r'
    /\ same_request (mk (lit "a") [lit "b"; lit "c"]) r'.
Proof.
  apply (doParse_to_string_doParse (lit " a @ ! b@!c @@ !b ")).
  reflexivity.
Defined.

(** *** The atomdb parser: the loop over normalised lines *)

Import vardef_atomdb.

Lemma str2val_line_accumulate validateAtomDBLine (result line_sv : std_string) :
  str2val_line validateAtomDBLine result line_sv
  = match line_parts line_sv with
    | [] => Ok result
    | parts =>
        atomdb_accumulate validateAtomDBLine result (joinstr parts (lit ":"))
    end.
Proof. unfold str2val_line. destruct (line_parts line_sv); reflexivity. Qed.

Lemma str2val_loop validateAtomDBLine (lines : list std_string) (result : std_string) :
  for_each (str2val_line validateAtomDBLine) lines result
  = for_each (atomdb_accumulate validateAtomDBLine)
      (map (fun parts => joinstr parts (lit ":"))
         (filter (fun parts => match parts with [] => false | _ :: _ => true end)
            (map line_parts lines)))
      result.
Proof.
  revert result; induction lines as [|l lines IH]; intros result; simpl;
    [reflexivity|].
  rewrite str2val_line_accumulate.
  destruct (line_parts l) as [|p ps]; simpl; [apply IH|].
  destruct (atomdb_accumulate _ _ _); simpl; [apply IH | reflexivity].
Qed.

(** [str2val] runs over the normalised lines of its input. *)
Lemma str2val_normalised_lines validateAtomDBLine (sv : std_string) :
  str2val validateAtomDBLine sv
  = for_each (atomdb_accumulate validateAtomDBLine) (normalised_lines sv) [].
Proof. apply str2val_loop. Qed.

Lemma joinstr_nonempty (p : std_string) (ps : list std_string) (sep : std_string) :
  p <> [] -> joinstr (p :: ps) sep <> [].
Proof.
  intros Hp. destruct ps; simpl; [exact Hp|].
  intros H. apply app_eq_nil in H as [H _]. contradiction.
Qed.

Lemma normalised_lines_nonempty (sv : std_string) :
  Forall (fun l => l <> []) (normalised_lines sv).
Proof.
  apply Forall_forall. intros l Hl. unfold normalised_lines in Hl.
  apply in_map_iff in Hl as (parts & <- & Hparts).
  apply filter_In in Hparts as (Hin & Hne).
  apply in_map_iff in Hin as (line & <- & _).
  unfold line_parts, StrView.split in *.
  destruct (filter _ _) as [|p ps] eqn:Hf; [discriminate|].
  assert (Hp : In p (filter StrView.nonempty
                       (StrView.split_by StrView.isWhiteSpace
                          (strreplace line ":" " "))))
    by (rewrite Hf; left; reflexivity).
  apply filter_In in Hp as (_ & Hp).
  apply joinstr_nonempty. apply empty_false.
  unfold StrView.nonempty in Hp. apply negb_true_iff in Hp. exact Hp.
Qed.

Lemma accumulate_nonempty validateAtomDBLine (result line result' : std_string) :
  atomdb_accumulate validateAtomDBLine result line = Ok result' ->
  line <> [] -> result' <> [].
Proof.
  unfold atomdb_accumulate. intros H Hl.
  destruct (validateAtomDBLine _); [|discriminate].
  destruct (streq line nodefaults && negb (empty result)); [discriminate|].
  injection H as <-. intros E. apply app_eq_nil in E as [_ E]. contradiction.
Qed.

Lemma accumulate_loop_nonempty validateAtomDBLine
  (lines : list std_string) (result result' : std_string) :
  for_each (atomdb_accumulate validateAtomDBLine) lines result = Ok result' ->
  Forall (fun l => l <> []) lines ->
  result <> [] \/ lines <> [] -> result' <> [].
Proof.
  revert result; induction lines as [|l lines IH]; intros result Hrun Hne Hstart;
    simpl in Hrun.
  - injection Hrun as <-. destruct Hstart; congruence.
  - inversion Hne as [|? ? Hl Hne']; subst.
    destruct (atomdb_accumulate _ result l) as [r1|] eqn:Hstep; [|discriminate].
    simpl in Hrun. apply (IH r1 Hrun Hne').
    left. exact (accumulate_nonempty _ _ _ _ Hstep Hl).
Qed.

(** Lines that pass are appended with [@] in between. *)
Lemma accumulate_loop_valid validateAtomDBLine
  (lines : list std_string) (result : std_string) :
  result <> [] ->
  Forall (line_valid validateAtomDBLine) lines ->
  ~ In nodefaults lines ->
  for_each (atomdb_accumulate validateAtomDBLine) lines result
  = Ok (joinstr (result :: lines) (lit "@")).
Proof.
  revert result; induction lines as [|l lines IH]; intros result Hres Hval Hno;
    [reflexivity|].
  inversion Hval as [|? ? [u Hl] Hval']; subst.
  assert (Hstep : atomdb_accumulate validateAtomDBLine result l
                  = Ok (result ++ lit "@" ++ l)).
  { unfold atomdb_accumulate. rewrite Hl.
    assert (Hneq : streq l nodefaults = false)
      by (apply streq_neq; intros ->; apply Hno; left; reflexivity).
    rewrite Hneq. simpl. apply empty_false in Hres. rewrite Hres. simpl.
    rewrite <- app_assoc. reflexivity. }
  simpl for_each. rewrite Hstep. simpl bind.
  rewrite IH.
  - f_equal. destruct lines; simpl; rewrite <- ?app_assoc; reflexivity.
  - intros E. apply app_eq_nil in E as [E _]. contradiction.
  - exact Hval'.
  - intros Hin. apply Hno. right. exact Hin.
Qed.

(** C4. For every line validator: an input whose first normalised line is
    the single word nodefaults parses when that line and the remaining lines
    pass the validator (and none of the remaining lines is nodefaults
    again), the value being the normalised lines joined by [@]; an input in
    which nodefaults is a normalised line after the first one is rejected
    with BadInput. *)
Theorem atomdb_nodefaults_first_line_only
  (validateAtomDBLine : list std_string -> Result unit) (sv : std_string) :
  (forall rest,
      normalised_lines sv = nodefaults :: rest ->
      line_valid validateAtomDBLine nodefaults ->
      Forall (line_valid validateAtomDBLine) rest ->
      ~ In nodefaults rest ->
      str2val validateAtomDBLine sv
      = Ok (joinstr (nodefaults :: rest) (lit "@")))
  /\ (forall pre post,
        normalised_lines sv = pre ++ nodefaults :: post ->
        pre <> [] ->
        throws (str2val validateAtomDBLine sv)).
Proof.
  rewrite str2val_normalised_lines. split.
  - intros rest -> [u Hnd] Hval Hno. simpl for_each.
    unfold atomdb_accumulate at 1. rewrite Hnd, streq_refl. simpl.
    apply accumulate_loop_valid; [discriminate | exact Hval | exact Hno].
  - intros pre post Hlines Hpre.
    pose proof (normalised_lines_nonempty sv) as Hne.
    rewrite Hlines in *. apply Forall_app in Hne as [Hne _].
    rewrite for_each_app.
    destruct (for_each (atomdb_accumulate validateAtomDBLine) pre [])
      as [result|err] eqn:Hrun; simpl;
      [|apply throws_Throw].
    assert (Hres : result <> [])
      by (apply (accumulate_loop_nonempty _ _ _ _ Hrun Hne); right; exact Hpre).
    unfold atomdb_accumulate at 1.
    destruct (validateAtomDBLine _); [|apply throws_Throw].
    rewrite streq_refl. apply empty_false in Hres. rewrite Hres. simpl.
    apply throws_Throw.
Qed.

Lemma atomdb_nodefaults_first_line_only_witness :
  str2val accept_all_lines (lit "nodefaults@H is H")
  = Ok (lit "nodefaults@H:is:H")
  /\ throws (str2val accept_all_lines (lit "H is H@nodefaults")).
Proof.
  split.
  - apply (proj1 (atomdb_nodefaults_first_line_only accept_all_lines
                    (lit "nodefaults@H is H")) [lit "H:is:H"]).
    + reflexivity.
    + exists tt. reflexivity.
    + constructor; [exists tt; reflexivity | constructor].
    + intros [H|[]]. discriminate.
  - apply (proj2 (atomdb_nodefaults_first_line_only accept_all_lines
                    (lit "H is H@nodefaults")) [lit "H:is:H"] []).
    + reflexivity.
    + discriminate.
Defined.

(** *** The atomdb parser: spacing (C6) *)

(** Replacing [:] by a space and cutting at whitespace is cutting at
    whitespace and [:] alike. *)
Lemma split_by_strreplace (l : std_string) :
  StrView.split_by StrView.isWhiteSpace (strreplace l ":" " ")
  = StrView.split_by line_space l.
Proof.
  induction l as [|c t IH]; [reflexivity|].
  change (strreplace (c :: t) ":" " ")
    with ((if Ascii.eqb c ":" then " "%char else c) :: strreplace t ":" " ").
  cbn [StrView.split_by]. rewrite IH.
  assert (Hls : line_space c = StrView.isWhiteSpace c || Ascii.eqb c ":")
    by reflexivity.
  destruct (Ascii.eqb c ":") eqn:Hc.
  - rewrite Hls, orb_true_r. reflexivity.
  - rewrite Hls, orb_false_r. reflexivity.
Qed.

Lemma line_parts_words (l : std_string) : line_parts l = line_words l.
Proof.
  unfold line_parts, line_words, StrView.split.
  rewrite split_by_strreplace. reflexivity.
Qed.

Lemma line_words_cons_space (c : ascii) (l : std_string) :
  line_space c = true -> line_words (c :: l) = line_words l.
Proof. unfold line_words. simpl. intros ->. reflexivity. Qed.

Lemma line_words_app_space (a b : std_string) (c : ascii) :
  line_space c = true -> line_words (a ++ c :: b) = line_words a ++ line_words b.
Proof.
  intros Hc. unfold line_words.
  rewrite (split_by_app line_space a b c Hc). apply filter_app.
Qed.

Lemma line_words_snoc_space (l : std_string) (c : ascii) :
  line_space c = true -> line_words (l ++ [c]) = line_words l.
Proof.
  intros Hc. rewrite (line_words_app_space l [] c Hc).
  apply app_nil_r.
Qed.

Lemma line_words_leading (w l : std_string) :
  forallb StrView.isWhiteSpace w = true -> line_words (w ++ l) = line_words l.
Proof.
  induction w as [|c w IH]; simpl; [reflexivity|].
  intros H. apply andb_true_iff in H as [Hc Hw].
  rewrite (line_words_cons_space c (w ++ l) (whitespace_line_space c Hc)).
  exact (IH Hw).
Qed.

Lemma line_words_trailing (w l : std_string) :
  forallb StrView.isWhiteSpace w = true -> line_words (l ++ w) = line_words l.
Proof.
  revert l; induction w as [|c w IH]; intros l; simpl.
  - rewrite app_nil_r. reflexivity.
  - intros H. apply andb_true_iff in H as [Hc Hw].
    change (l ++ c :: w) with (l ++ [c] ++ w). rewrite app_assoc.
    rewrite (IH (l ++ [c]) Hw).
    apply line_words_snoc_space, whitespace_line_space, Hc.
Qed.

(** Trimming a line does not change its words. *)
Lemma line_words_trimmed (l : std_string) :
  line_words (StrView.trimmed l) = line_words l.
Proof.
  unfold StrView.trimmed.
  destruct (ltrimmed_decompose l) as (w1 & E1 & Hw1).
  destruct (rtrimmed_decompose (StrView.ltrimmed l)) as (w2 & E2 & Hw2).
  rewrite E1 at 2. rewrite (line_words_leading w1 _ Hw1).
  rewrite E2 at 2. rewrite (line_words_trailing w2 _ Hw2).
  reflexivity.
Qed.

Lemma normalised_pieces (pieces : list std_string) :
  filter (fun parts => match parts with [] => false | _ :: _ => true end)
    (map line_parts (filter StrView.nonempty (map StrView.trimmed pieces)))
  = filter (fun parts => match parts with [] => false | _ :: _ => true end)
      (map line_words pieces).
Proof.
  induction pieces as [|p pieces IH]; simpl; [reflexivity|].
  rewrite <- (line_words_trimmed p).
  destruct (StrView.trimmed p) as [|c t] eqn:Ht; simpl.
  - exact IH.
  - rewrite line_parts_words, IH. reflexivity.
Qed.

(** The normalised lines of an input are the words of its pieces between
    [@] signs, joined by [:], for the pieces that have words. *)
Lemma normalised_lines_words (sv : std_string) :
  normalised_lines sv
  = map (fun parts => joinstr parts (lit ":"))
      (filter (fun parts => match parts with [] => false | _ :: _ => true end)
         (map line_words (StrView.split_by (Ascii.eqb "@"%char) sv))).
Proof.
  unfold normalised_lines, StrView.splitTrimmedNoEmpty.
  rewrite normalised_pieces. reflexivity.
Qed.

Lemma same_up_to_spacing_words (l1 l2 : std_string) :
  same_up_to_spacing l1 l2 -> line_words l1 = line_words l2.
Proof.
  induction 1 as [l | l1 l2 _ IH | l1 l2 l3 _ IH1 _ IH2
                 | a c c' b Hc Hc' | a c c' b Hc Hc' | c l Hc | c l Hc].
  - reflexivity.
  - symmetry. exact IH.
  - congruence.
  - rewrite !line_words_app_space by assumption. reflexivity.
  - rewrite !line_words_app_space by assumption.
    rewrite (line_words_cons_space c' b Hc'). reflexivity.
  - apply line_words_cons_space. exact Hc.
  - apply line_words_snoc_space. exact Hc.
Qed.

Lemma same_up_to_spacing_one_line (l1 l2 : std_string) :
  same_up_to_spacing l1 l2 ->
  forallb (fun c => negb (Ascii.eqb "@"%char c)) l1
  = forallb (fun c => negb (Ascii.eqb "@"%char c)) l2.
Proof.
  induction 1 as [l | l1 l2 _ IH | l1 l2 l3 _ IH1 _ IH2
                 | a c c' b Hc Hc' | a c c' b Hc Hc' | c l Hc | c l Hc];
    try congruence;
    rewrite ?forallb_app; cbn [forallb];
    rewrite ?(line_space_plain _ Hc), ?(line_space_plain _ Hc');
    cbn [negb andb]; rewrite ?andb_true_r; reflexivity.
Qed.

Lemma normalised_lines_one_line (l : std_string) :
  forallb (fun c => negb (Ascii.eqb "@"%char c)) l = true ->
  normalised_lines l
  = map (fun parts => joinstr parts (lit ":"))
      (filter (fun parts => match parts with [] => false | _ :: _ => true end)
         [line_words l]).
Proof.
  intros H. rewrite normalised_lines_words, (split_by_no_cut _ l H).
  reflexivity.
Qed.

Lemma normalised_lines_between (pre l post : std_string) :
  forallb (fun c => negb (Ascii.eqb "@"%char c)) l = true ->
  normalised_lines (pre ++ "@"%char :: l ++ "@"%char :: post)
  = normalised_lines pre ++ normalised_lines l ++ normalised_lines post.
Proof.
  intros H. rewrite !normalised_lines_words.
  rewrite (split_by_app _ pre _ "@"%char) by reflexivity.
  rewrite (split_by_app _ l post "@"%char) by reflexivity.
  rewrite !map_app, !filter_app, !map_app. reflexivity.
Qed.

Lemma split_by_free (p : ascii -> bool) (s : std_string) :
  Forall (fun piece => forallb (fun c => negb (p c)) piece = true)
         (StrView.split_by p s).
Proof.
  induction s as [|c t IH]; simpl.
  - constructor; [reflexivity | constructor].
  - destruct (p c) eqn:Hc.
    + constructor; [reflexivity | exact IH].
    + destruct (StrView.split_by p t) as [|piece pieces].
      * constructor; [simpl; rewrite Hc; reflexivity | constructor].
      * inversion IH as [|? ? Hpiece Hpieces]; subst.
        constructor; [simpl; rewrite Hc, Hpiece; reflexivity | exact Hpieces].
Qed.

(** The words of a line are non-empty and hold no whitespace and no [:]. *)
Lemma line_words_no_spacing (l : std_string) :
  Forall (fun w => w <> [] /\ forallb (fun c => negb (line_space c)) w = true)
         (line_words l).
Proof.
  apply Forall_forall. intros w Hw.
  unfold line_words in Hw. apply filter_In in Hw as [Hin Hne]. split.
  - apply empty_false. unfold StrView.nonempty in Hne.
    apply negb_true_iff in Hne. exact Hne.
  - pose proof (split_by_free line_space l) as Hall.
    rewrite Forall_forall in Hall. exact (Hall w Hin).
Qed.

(** What [str2val] does with a text that is one line. *)
Lemma str2val_one_line validateAtomDBLine (l : std_string) :
  forallb (fun c => negb (Ascii.eqb "@"%char c)) l = true ->
  str2val validateAtomDBLine l
  = match line_words l with
    | [] => Ok []
    | _ :: _ =>
        match validateAtomDBLine
                (split2 (joinstr (line_words l) (lit ":")) ":"%char) with
        | Ok _ => Ok (joinstr (line_words l) (lit ":"))
        | Throw e =>
            Throw (BadInput
                     (lit "Invalid entry in atomdb cfg parameter in the line: "
                      ++ dq ++ joinstr (line_words l) (lit ":") ++ dq
                      ++ lit ". Error is: " ++ what e))
        end
    end.
Proof.
  intros Hline.
  rewrite str2val_normalised_lines, (normalised_lines_one_line l Hline).
  destruct (line_words l) as [|w ws]; [reflexivity|].
  cbn [filter map for_each]. unfold atomdb_accumulate.
  destruct (validateAtomDBLine _) as [u|e]; [|reflexivity].
  rewrite andb_false_r. reflexivity.
Qed.

(** C6. Two lines that differ only in the use of [:] versus whitespace, or
    in the amount of leading, trailing or internal whitespace, have the same
    normalised line, and the parser gives the same result for them, alone or
    as a line between other lines; the inputs "H:is:H" and "H  is  H" give
    identical results.  The normalised line is the canonical one: the words
    of the line, which are non-empty and hold no whitespace and no [:],
    joined by single [:]; it is the value of both lines when the line
    validator accepts it, and the line quoted in the error when it does not;
    a line without words gives the empty value.  For "H:is:H" and
    "H  is  H" the canonical line is "H:is:H". *)
Theorem atomdb_spacing_insensitive
  (validateAtomDBLine : list std_string -> Result unit) (l1 l2 : std_string) :
  same_up_to_spacing l1 l2 ->
  forallb (fun c => negb (Ascii.eqb "@"%char c)) l1 = true ->
  normalised_lines l1 = normalised_lines l2
  /\ str2val validateAtomDBLine l1 = str2val validateAtomDBLine l2
  /\ (forall pre post,
        str2val validateAtomDBLine (pre ++ "@"%char :: l1 ++ "@"%char :: post)
        = str2val validateAtomDBLine (pre ++ "@"%char :: l2 ++ "@"%char :: post))
  /\ str2val validateAtomDBLine (lit "H:is:H")
     = str2val validateAtomDBLine (lit "H  is  H")
  /\ line_words l2 = line_words l1
  /\ Forall (fun w => w <> [] /\ forallb (fun c => negb (line_space c)) w = true)
            (line_words l1)
  /\ (line_words l1 = [] ->
      normalised_lines l1 = [] /\ normalised_lines l2 = []
      /\ str2val validateAtomDBLine l1 = Ok []
      /\ str2val validateAtomDBLine l2 = Ok [])
  /\ (line_words l1 <> [] ->
      normalised_lines l1 = [joinstr (line_words l1) (lit ":")]
      /\ normalised_lines l2 = [joinstr (line_words l1) (lit ":")]
      /\ (forall u,
            validateAtomDBLine
              (split2 (joinstr (line_words l1) (lit ":")) ":"%char) = Ok u ->
            str2val validateAtomDBLine l1 = Ok (joinstr (line_words l1) (lit ":"))
            /\ str2val validateAtomDBLine l2
               = Ok (joinstr (line_words l1) (lit ":")))
      /\ (forall e,
            validateAtomDBLine
              (split2 (joinstr (line_words l1) (lit ":")) ":"%char) = Throw e ->
            str2val validateAtomDBLine l1
            = Throw (BadInput
                       (lit "Invalid entry in atomdb cfg parameter in the line: "
                        ++ dq ++ joinstr (line_words l1) (lit ":") ++ dq
                        ++ lit ". Error is: " ++ what e))
            /\ str2val validateAtomDBLine l2 = str2val validateAtomDBLine l1))
  /\ (normalised_lines (lit "H:is:H") = [lit "H:is:H"]
      /\ normalised_lines (lit "H  is  H") = [lit "H:is:H"]
      /\ forall u,
           validateAtomDBLine [lit "H"; lit "is"; lit "H"] = Ok u ->
           str2val validateAtomDBLine (lit "H:is:H") = Ok (lit "H:is:H")
           /\ str2val validateAtomDBLine (lit "H  is  H") = Ok (lit "H:is:H")).
Proof.
  intros Hsame Hline1.
  assert (Hline2 : forallb (fun c => negb (Ascii.eqb "@"%char c)) l2 = true)
    by (rewrite <- (same_up_to_spacing_one_line l1 l2 Hsame); exact Hline1).
  assert (Hlines : normalised_lines l1 = normalised_lines l2).
  { rewrite (normalised_lines_one_line l1 Hline1),
      (normalised_lines_one_line l2 Hline2),
      (same_up_to_spacing_words l1 l2 Hsame). reflexivity. }
  assert (Hwords : line_words l2 = line_words l1)
    by (symmetry; exact (same_up_to_spacing_words l1 l2 Hsame)).
  assert (Hsame_value : str2val validateAtomDBLine l1
                        = str2val validateAtomDBLine l2)
    by (rewrite !str2val_normalised_lines, Hlines; reflexivity).
  split; [exact Hlines|]. split; [exact Hsame_value|].
  split; [|split; [reflexivity|]].
  { intros pre post. rewrite !str2val_normalised_lines.
    rewrite (normalised_lines_between pre l1 post Hline1),
      (normalised_lines_between pre l2 post Hline2), Hlines. reflexivity. }
  split; [exact Hwords|]. split; [apply line_words_no_spacing|].
  split; [|split].
  - intros Hnone.
    assert (Hnl : normalised_lines l1 = [])
      by (rewrite (normalised_lines_one_line l1 Hline1), Hnone; reflexivity).
    assert (Hval : str2val validateAtomDBLine l1 = Ok [])
      by (rewrite (str2val_one_line validateAtomDBLine l1 Hline1), Hnone;
          reflexivity).
    repeat split; [exact Hnl | rewrite <- Hlines; exact Hnl | exact Hval
                   | rewrite <- Hsame_value; exact Hval].
  - intros Hsome.
    assert (Hnl : normalised_lines l1 = [joinstr (line_words l1) (lit ":")]).
    { rewrite (normalised_lines_one_line l1 Hline1).
      destruct (line_words l1); [congruence | reflexivity]. }
    split; [exact Hnl|]. split; [rewrite <- Hlines; exact Hnl|].
    pose proof (str2val_one_line validateAtomDBLine l1 Hline1) as Hrun.
    destruct (line_words l1) as [|w ws] eqn:Hw; [congruence|].
    split.
    + intros u Hu. rewrite Hu in Hrun.
      split; [exact Hrun | rewrite <- Hsame_value; exact Hrun].
    + intros e He. rewrite He in Hrun.
      split; [exact Hrun | symmetry; exact Hsame_value].
  - split; [reflexivity|]. split; [reflexivity|].
    intros u Hu.
    pose proof (str2val_one_line validateAtomDBLine (lit "H:is:H") eq_refl) as H1.
    pose proof (str2val_one_line validateAtomDBLine (lit "H  is  H") eq_refl) as H2.
    change (line_words (lit "H:is:H")) with [lit "H"; lit "is"; lit "H"] in H1.
    change (line_words (lit "H  is  H")) with [lit "H"; lit "is"; lit "H"] in H2.
    change (split2 (joinstr [lit "H"; lit "is"; lit "H"] (lit ":")) ":"%char)
      with [lit "H"; lit "is"; lit "H"] in H1, H2.
    rewrite Hu in H1, H2. split; [exact H1 | exact H2].
Qed.

Lemma H_is_H_same_up_to_spacing :
  same_up_to_spacing (lit "H:is:H") (lit "H  is  H").
Proof.
  apply (sp_trans _ (lit "H is:H")).
  { exact (sp_exchange (lit "H") ":" " " (lit "is:H") eq_refl eq_refl). }
  apply (sp_trans _ (lit "H is H")).
  { exact (sp_exchange (lit "H is") ":" " " (lit "H") eq_refl eq_refl). }
  apply (sp_trans _ (lit "H  is H")).
  { exact (sp_more (lit "H") " " " " (lit "is H") eq_refl eq_refl). }
  exact (sp_more (lit "H  is") " " " " (lit "H") eq_refl eq_refl).
Defined.

Lemma atomdb_spacing_insensitive_witness :
  normalised_lines (lit "H:is:H") = normalised_lines (lit "H  is  H")
  /\ str2val accept_all_lines (lit "H:is:H")
     = str2val accept_all_lines (lit "H  is  H")
  /\ str2val accept_all_lines (lit "H:is:H") = Ok (lit "H:is:H")
  /\ str2val accept_all_lines (lit "H  is  H") = Ok (lit "H:is:H").
Proof.
  destruct (atomdb_spacing_insensitive accept_all_lines
              (lit "H:is:H") (lit "H  is  H")
              H_is_H_same_up_to_spacing eq_refl)
    as (H1 & H2 & _ & _ & _ & _ & _ & Hvalue & _).
  split; [exact H1|]. split; [exact H2|].
  destruct (Hvalue ltac:(discriminate)) as (_ & _ & Hok & _).
  exact (Hok tt eq_refl).
Defined.

(** *** The table of variables (C8) *)

Lemma constexpr_name2Idx_from_found (list : list VarInfo) (name : std_string)
  (idx k : nat) :
  constexpr_name2Idx_from list name idx = Some k ->
  idx <= k /\ option_map vi_name (nth_error list (k - idx)) = Some name.
Proof.
  revert idx; induction list as [|vi rest IH]; intros idx H; simpl in H;
    [discriminate|].
  destruct (streq (vi_name vi) name) eqn:E.
  - injection H as <-. apply streq_eq in E.
    rewrite Nat.sub_diag. simpl. split; [lia | congruence].
  - apply IH in H as [Hle Hnth]. split; [lia|].
    replace (k - idx) with (S (k - S idx)) by lia. exact Hnth.
Qed.

Lemma constexpr_name2Idx_from_total (list : list VarInfo) (name : std_string)
  (idx : nat) :
  In name (map vi_name list) ->
  exists k, constexpr_name2Idx_from list name idx = Some k.
Proof.
  revert idx; induction list as [|vi rest IH]; intros idx Hin; simpl in *;
    [contradiction|].
  destruct (streq (vi_name vi) name) eqn:E; [eauto|].
  apply streq_neq in E. destruct Hin as [Hin|Hin]; [contradiction|].
  apply IH. exact Hin.
Qed.

(** The table has no name twice. *)
Lemma varlist_names_distinct : NoDup (map vi_name varlist).
Proof.
  repeat (constructor;
          [intros H; repeat (destruct H as [H|H]; [discriminate H|]);
           exact H|]).
  constructor.
Qed.

(** Every enumerator of [VarId] names an entry of the table, and no two
    the same one. *)
Lemma VarId_enumerators_resolve :
  map constexpr_varName2Idx VarId_enumerators
  = map Some [18; 17; 3; 4; 7; 14; 19; 12; 11; 13; 5; 6; 15; 8; 9; 2; 1; 10; 16; 0].
Proof. vm_compute. reflexivity. Qed.

(** C8. For every name in the table, the lookup of the name finds an
    identifier, and [varName] of that identifier is the name again. *)
Theorem varName_of_looked_up_name (name : std_string) :
  In name (map vi_name varlist) ->
  exists id, varIdFromName name = Some id /\ varName id = Some name.
Proof.
  intros Hin.
  destruct (constexpr_name2Idx_from_total varlist name 0 Hin) as [k Hk].
  exists (static_cast_VarId k). split.
  - unfold varIdFromName, constexpr_varIdFromName, constexpr_varName2Idx,
      constexpr_name2Idx. rewrite Hk. reflexivity.
  - apply constexpr_name2Idx_from_found in Hk as [_ Hnth].
    rewrite Nat.sub_0_r in Hnth. exact Hnth.
Qed.

Lemma varName_of_looked_up_name_witness :
  exists id, varIdFromName (lit "temp") = Some id
             /\ varName id = Some (lit "temp").
Proof.
  apply (varName_of_looked_up_name (lit "temp")).
  vm_compute. tauto.
Defined.

(** *** The inelas variable (C9) *)

Lemma contains_only_inelas (sv : std_string) :
  StrView.contains_only sv (lit "abcdefghijklmnopqrstuvwxyz_0123456789")
  = forallb lower_digit_underscore sv.
Proof.
  unfold StrView.contains_only. induction sv as [|c t IH]; simpl; [reflexivity|].
  rewrite <- IH. f_equal. apply inelas_charset.
Qed.

Lemma isOneOf_In (sv : std_string) (alts : list std_string) :
  isOneOf sv alts = true <-> In sv alts.
Proof.
  unfold isOneOf. rewrite existsb_exists. split.
  - intros (x & Hx & E). apply streq_eq in E. subst. exact Hx.
  - intros H. exists sv. split; [exact H | apply streq_refl].
Qed.

(** C9. The spellings none, 0, sterile and false are all stored as "0";
    every other non-empty token made of lowercase letters, digits and
    underscores is stored unchanged; the empty token and every token with
    another character are rejected with BadInput. *)
Theorem inelas_str2val_spec (sv : std_string) :
  (In sv inelas_disable_spellings -> vardef_inelas.str2val sv = Ok (lit "0"))
  /\ (sv <> [] -> forallb lower_digit_underscore sv = true ->
      ~ In sv inelas_disable_spellings ->
      vardef_inelas.str2val sv = Ok sv)
  /\ (sv = [] \/ existsb (fun c => negb (lower_digit_underscore c)) sv = true ->
      throws (vardef_inelas.str2val sv)).
Proof.
  unfold vardef_inelas.str2val. rewrite contains_only_inelas.
  fold inelas_disable_spellings. split; [|split].
  - intros Hin.
    repeat (destruct Hin as [<-|Hin]; [reflexivity|]). contradiction.
  - intros Hne Hchars Hnot. apply empty_false in Hne.
    rewrite Hne, Hchars. cbn [negb orb].
    destruct (isOneOf sv inelas_disable_spellings) eqn:E; [|reflexivity].
    apply isOneOf_In in E. contradiction.
  - intros [->|Hbad]; [apply throws_Throw|].
    assert (Hchars : forallb lower_digit_underscore sv = false).
    { apply existsb_exists in Hbad as (c & Hc & Hbad).
      apply negb_true_iff in Hbad.
      destruct (forallb lower_digit_underscore sv) eqn:E; [|reflexivity].
      rewrite forallb_forall in E. rewrite (E c Hc) in Hbad. discriminate. }
    rewrite Hchars, orb_true_r. apply throws_Throw.
Qed.

Lemma inelas_str2val_spec_witness :
  vardef_inelas.str2val (lit "sterile") = Ok (lit "0")
  /\ vardef_inelas.str2val (lit "freegas") = Ok (lit "freegas")
  /\ throws (vardef_inelas.str2val (lit "FreeGas")).
Proof.
  split; [|split].
  - apply (proj1 (inelas_str2val_spec (lit "sterile"))).
    vm_compute. tauto.
  - apply (proj1 (proj2 (inelas_str2val_spec (lit "freegas")))).
    + discriminate.
    + reflexivity.
    + intros H. repeat (destruct H as [H|H]; [discriminate H|]). exact H.
  - apply (proj2 (proj2 (inelas_str2val_spec (lit "FreeGas")))).
    right. reflexivity.
Defined.

(** *** Stream output of [OrientDir] (C10) *)

(** C10. Writing an [OrientDir] to a stream always succeeds and appends:
    for a [CrystalAxis], "@crys:" and its three components; for an
    [HKLPoint], "@crys_hkl:" and its three components; for an empty variant,
    "@crys:<MISSING>"; and after that, in every case, "@lab:" and the three
    components of the lab-frame vector, with which the output ends. *)
Theorem put_OrientDir_text (fmt : double -> std_string) (os : ostream)
  (v l : ThreeVector) :
  put_OrientDir fmt os (Build_OrientDir (has_CrystalAxis v) l)
  = os ++ lit "@crys:" ++ components fmt v ++ lit "@lab:" ++ components fmt l
  /\ put_OrientDir fmt os (Build_OrientDir (has_HKLPoint v) l)
     = os ++ lit "@crys_hkl:" ++ components fmt v
          ++ lit "@lab:" ++ components fmt l
  /\ put_OrientDir fmt os (Build_OrientDir has_nothing l)
     = os ++ lit "@crys:<MISSING>" ++ lit "@lab:" ++ components fmt l
  /\ (forall od, exists crystal_text,
        put_OrientDir fmt os od
        = os ++ crystal_text ++ lit "@lab:" ++ components fmt (lab od)).
Proof.
  assert (Haxis : forall v l,
    put_OrientDir fmt os (Build_OrientDir (has_CrystalAxis v) l)
    = os ++ lit "@crys:" ++ components fmt v ++ lit "@lab:" ++ components fmt l).
  { intros v0 l0. unfold put_OrientDir, components, put. cbn [crystal lab at_].
    rewrite <- !app_assoc. reflexivity. }
  assert (Hhkl : forall v l,
    put_OrientDir fmt os (Build_OrientDir (has_HKLPoint v) l)
    = os ++ lit "@crys_hkl:" ++ components fmt v
         ++ lit "@lab:" ++ components fmt l).
  { intros v0 l0. unfold put_OrientDir, components, put. cbn [crystal lab at_].
    rewrite <- !app_assoc. reflexivity. }
  assert (Hnone : forall l,
    put_OrientDir fmt os (Build_OrientDir has_nothing l)
    = os ++ lit "@crys:<MISSING>" ++ lit "@lab:" ++ components fmt l).
  { intros l0. unfold put_OrientDir, components, put. cbn [crystal lab at_].
    rewrite <- !app_assoc. reflexivity. }
  split; [apply Haxis|]. split; [apply Hhkl|]. split; [apply Hnone|].
  intros [[v0|v0|] l0]; cbn [lab].
  - exists (lit "@crys:" ++ components fmt v0). rewrite Haxis, <- !app_assoc.
    reflexivity.
  - exists (lit "@crys_hkl:" ++ components fmt v0). rewrite Hhkl, <- !app_assoc.
    reflexivity.
  - exists (lit "@crys:<MISSING>"). rewrite Hnone. reflexivity.
Qed.

(** ** Further properties of the code *)

(** *** Numeric validators: stored values, edge values, defaults *)

(** X1. A value that the validator of dcutoff hands out is +0 or lies in
    the closed range from 1e-3 to 1e5, and validating it once more gives it
    back: the stored value is canonical. *)
Theorem dcutoff_stored_value_canonical (value stored : double) :
  vardef_dcutoff.value_validate value = Ok stored ->
  (stored = Lit.d0_0
   \/ ((stored >= Lit.d1e_3) && (stored <= Lit.d1e5))%dbl = true)
  /\ vardef_dcutoff.value_validate stored = Ok stored.
Proof.
  unfold vardef_dcutoff.value_validate.
  destruct ((value == Lit.neg_d1_0) || (value == Lit.d0_0))%dbl eqn:Hspecial.
  - intros H. injection H as <-. split; [left|]; reflexivity.
  - destruct (negb (value > Lit.d0_0)%dbl) eqn:Hpos; [discriminate|].
    destruct (negb ((value >= Lit.d1e_3) && (value <= Lit.d1e5))%dbl) eqn:Hrange;
      [discriminate|].
    intros H. injection H as <-.
    rewrite Hspecial, Hpos, Hrange. split; [right|reflexivity].
    apply negb_false_iff in Hrange. exact Hrange.
Qed.

Lemma dcutoff_stored_value_canonical_witness :
  (Lit.d0_0 = Lit.d0_0
   \/ ((Lit.d0_0 >= Lit.d1e_3) && (Lit.d0_0 <= Lit.d1e5))%dbl = true)
  /\ vardef_dcutoff.value_validate Lit.d0_0 = Ok Lit.d0_0.
Proof.
  apply (dcutoff_stored_value_canonical Lit.neg_d1_0 Lit.d0_0). reflexivity.
Defined.

Lemma negative_not_positive (value : double) :
  (value < Lit.d0_0)%dbl = true ->
  (value > Lit.d0_0)%dbl = false
  /\ (value >= Lit.d0_0)%dbl = false
  /\ (value >= Lit.d0_001)%dbl = false
  /\ (value >= Lit.d1e_7)%dbl = false.
Proof.
  destruct value as [s|[]| |[] m e]; vm_compute; intros H;
    try discriminate H; repeat split; reflexivity.
Qed.

(** X2. No validator of a double accepts a NaN, and none accepts a negative
    value, minus infinity included, except for the special value -1 of temp
    and dcutoff; plus infinity is an accepted dcutoffup and sccutoff and a
    rejected temp, dcutoff and mosprec. *)
Theorem double_validators_reject_nan_and_negative
  (show_temperature : double -> std_string) (kPi kPiHalf : double)
  (value : double) :
  (throws (vardef_temp.value_validate show_temperature S754_nan)
   /\ throws (vardef_dcutoff.value_validate S754_nan)
   /\ throws (vardef_dcutoffup.value_validate S754_nan)
   /\ throws (vardef_sccutoff.value_validate S754_nan)
   /\ throws (vardef_mos.value_validate kPiHalf S754_nan)
   /\ throws (vardef_dirtol.value_validate kPi S754_nan)
   /\ throws (vardef_mosprec.value_validate S754_nan))
  /\ ((value < Lit.d0_0)%dbl = true ->
      ((value == Lit.neg_d1_0)%dbl = false ->
       throws (vardef_temp.value_validate show_temperature value)
       /\ throws (vardef_dcutoff.value_validate value))
      /\ throws (vardef_dcutoffup.value_validate value)
      /\ throws (vardef_sccutoff.value_validate value)
      /\ throws (vardef_mos.value_validate kPiHalf value)
      /\ throws (vardef_dirtol.value_validate kPi value)
      /\ throws (vardef_mosprec.value_validate value))
  /\ vardef_dcutoffup.value_validate (S754_infinity false)
     = Ok (S754_infinity false)
  /\ vardef_sccutoff.value_validate (S754_infinity false)
     = Ok (S754_infinity false)
  /\ throws (vardef_temp.value_validate show_temperature (S754_infinity false))
  /\ throws (vardef_dcutoff.value_validate (S754_infinity false))
  /\ throws (vardef_mosprec.value_validate (S754_infinity false)).
Proof.
  split; [repeat split; apply throws_Throw|].
  split; [|repeat split; try reflexivity; apply throws_Throw].
  intros Hneg.
  destruct (negative_not_positive value Hneg) as (Hgt & Hge & Hge1 & Hge7).
  assert (Hzero : (value == Lit.d0_0)%dbl = false).
  { unfold dbl_lt, dbl_eq, SFltb, SFeqb in *.
    destruct (SFcompare value Lit.d0_0) as [[]|]; congruence. }
  split; [intros Hspecial; split|repeat split].
  - unfold vardef_temp.value_validate. rewrite Hspecial, Hge1.
    apply throws_Throw.
  - unfold vardef_dcutoff.value_validate. rewrite Hspecial, Hzero, Hgt.
    apply throws_Throw.
  - unfold vardef_dcutoffup.value_validate. rewrite Hge. apply throws_Throw.
  - unfold vardef_sccutoff.value_validate. rewrite Hge. apply throws_Throw.
  - unfold vardef_mos.value_validate. rewrite Hgt. apply throws_Throw.
  - unfold vardef_dirtol.value_validate. rewrite Hgt. apply throws_Throw.
  - unfold vardef_mosprec.value_validate. rewrite Hge7. apply throws_Throw.
Qed.

Lemma double_validators_reject_nan_and_negative_witness :
  throws (vardef_temp.value_validate (fun _ => lit "-2K")
            (S754_finite true 4503599627370496 (-51)))
  /\ throws (vardef_dcutoff.value_validate
               (S754_finite true 4503599627370496 (-51))).
Proof.
  apply (proj1 (proj2 (double_validators_reject_nan_and_negative
                         (fun _ => lit "-2K") example_kPi example_kPi
                         (S754_finite true 4503599627370496 (-51)))));
    reflexivity.
Defined.

(** X3. Every default value declared in the file passes the validation of
    its own variable unchanged (for dirtol, as soon as [kPi] is not below
    the default 1e-4). *)
Theorem default_values_are_valid
  (show_temperature : double -> std_string) (kPi : double)
  (validateAtomDBLine : list std_string -> Result unit) :
  (Lit.d1e_4 <= kPi)%dbl = true ->
  vardef_temp.value_validate show_temperature vardef_temp.default_value
  = Ok vardef_temp.default_value
  /\ vardef_dcutoff.value_validate vardef_dcutoff.default_value
     = Ok vardef_dcutoff.default_value
  /\ vardef_dcutoffup.value_validate vardef_dcutoffup.default_value
     = Ok vardef_dcutoffup.default_value
  /\ vardef_sccutoff.value_validate vardef_sccutoff.default_value
     = Ok vardef_sccutoff.default_value
  /\ vardef_dirtol.value_validate kPi vardef_dirtol.default_value
     = Ok vardef_dirtol.default_value
  /\ vardef_mosprec.value_validate vardef_mosprec.default_value
     = Ok vardef_mosprec.default_value
  /\ vardef_vdoslux.value_validate vardef_vdoslux.default_value
     = Ok vardef_vdoslux.default_value
  /\ vardef_lcmode.value_validate vardef_lcmode.default_value
     = Ok vardef_lcmode.default_value
  /\ vardef_inelas.str2val vardef_inelas.default_value
     = Ok vardef_inelas.default_value
  /\ vardef_atomdb.str2val validateAtomDBLine vardef_atomdb.default_value
     = Ok vardef_atomdb.default_value.
Proof.
  intros HkPi. repeat split; try reflexivity.
  unfold vardef_dirtol.value_validate, vardef_dirtol.default_value.
  rewrite HkPi. reflexivity.
Qed.

Lemma default_values_are_valid_witness :
  vardef_dirtol.value_validate example_kPi vardef_dirtol.default_value
  = Ok vardef_dirtol.default_value.
Proof.
  apply (default_values_are_valid (fun _ => []) example_kPi accept_all_lines).
  reflexivity.
Defined.

(** *** Factory requests: the update operations *)

Lemma excludes_loop_app (l1 l2 : list std_string) (fn : std_string) :
  excludes_loop (l1 ++ l2) fn = excludes_loop l1 fn || excludes_loop l2 fn.
Proof.
  induction l1 as [|e l1 IH]; simpl; [reflexivity|].
  destruct (streq fn e); [reflexivity | exact IH].
Qed.

Lemma excludes_after_exclude (r : t) (factname fn : std_string) :
  excludes (withAdditionalExclude r factname) fn
  = excludes r fn || streq fn factname.
Proof.
  unfold withAdditionalExclude, excludes.
  destruct (excludes_loop (m_excluded r) factname) eqn:E.
  - destruct (streq fn factname) eqn:Efn.
    + apply streq_eq in Efn. subst fn. rewrite E. reflexivity.
    + rewrite orb_false_r. reflexivity.
  - simpl. rewrite excludes_loop_app. simpl.
    destruct (streq fn factname); reflexivity.
Qed.

(** X4. After [withAdditionalExclude] with a name, the request excludes
    that name and exactly the names it excluded before; the specific request
    is untouched. *)
Theorem withAdditionalExclude_excludes (r : t) (factname fn : std_string) :
  excludes (withAdditionalExclude r factname) fn
  = excludes r fn || streq fn factname
  /\ excludes (withAdditionalExclude r factname) factname = true
  /\ specificRequest (withAdditionalExclude r factname) = specificRequest r
  /\ hasSpecificRequest (withAdditionalExclude r factname)
     = hasSpecificRequest r.
Proof.
  split; [apply excludes_after_exclude|]. split.
  - rewrite excludes_after_exclude, streq_refl. apply orb_true_r.
  - unfold withAdditionalExclude. destruct (excludes r factname); split; reflexivity.
Qed.

(** X5. Excluding a name that is excluded already returns the very same
    object, so the operation is idempotent; and it never introduces a
    repetition into the list of excluded names. *)
Theorem withAdditionalExclude_idempotent (r : t) (factname : std_string) :
  (excludes r factname = true -> withAdditionalExclude r factname = r)
  /\ withAdditionalExclude (withAdditionalExclude r factname) factname
     = withAdditionalExclude r factname
  /\ (NoDup (m_excluded r) ->
      NoDup (m_excluded (withAdditionalExclude r factname))).
Proof.
  split; [|split].
  - unfold withAdditionalExclude. intros ->. reflexivity.
  - assert (H : excludes (withAdditionalExclude r factname) factname = true)
      by (rewrite excludes_after_exclude, streq_refl; apply orb_true_r).
    unfold withAdditionalExclude at 1. rewrite H. reflexivity.
  - intros Hnd. unfold withAdditionalExclude, excludes.
    destruct (excludes_loop (m_excluded r) factname) eqn:E; [exact Hnd|].
    apply excludes_loop_not_In in E. simpl.
    apply NoDup_rev in Hnd.
    rewrite <- (rev_involutive (m_excluded r ++ [factname])).
    apply NoDup_rev. rewrite rev_app_distr. simpl.
    constructor; [|exact Hnd]. intros Hrev. apply E, in_rev, Hrev.
Qed.

(** X6. The order in which two names are excluded does not matter for the
    meaning of the request: both orders give semantically equal requests. *)
Theorem withAdditionalExclude_commutes (r : t) (f g : std_string) :
  same_request (withAdditionalExclude (withAdditionalExclude r f) g)
               (withAdditionalExclude (withAdditionalExclude r g) f).
Proof.
  split.
  - unfold withAdditionalExclude.
    repeat match goal with
           | |- context [if ?c then _ else _] => destruct c
           end; reflexivity.
  - intros fn. rewrite !excludes_after_exclude.
    destruct (excludes r fn), (streq fn f), (streq fn g); reflexivity.
Qed.

(** X7. [withNoSpecificRequest] clears the specific request and keeps the
    excluded names as they are; it is idempotent, it commutes with
    [withAdditionalExclude], and excluding a name after it always gives an
    object in which no specific request is excluded. *)
Theorem withNoSpecificRequest_keeps_excluded (r : t) (factname : std_string) :
  hasSpecificRequest (withNoSpecificRequest r) = false
  /\ m_excluded (withNoSpecificRequest r) = m_excluded r
  /\ (forall fn, excludes (withNoSpecificRequest r) fn = excludes r fn)
  /\ withNoSpecificRequest (withNoSpecificRequest r) = withNoSpecificRequest r
  /\ withNoSpecificRequest (withAdditionalExclude r factname)
     = withAdditionalExclude (withNoSpecificRequest r) factname
  /\ specific_not_excluded
       (withAdditionalExclude (withNoSpecificRequest r) factname).
Proof.
  repeat split.
  - unfold withNoSpecificRequest, withAdditionalExclude, excludes. simpl.
    destruct (excludes_loop (m_excluded r) factname); reflexivity.
  - unfold specific_not_excluded, withNoSpecificRequest, withAdditionalExclude,
      hasSpecificRequest, excludes. simpl.
    destruct (excludes_loop (m_excluded r) factname); simpl; discriminate.
Qed.

(** *** Factory requests: what the parser accepts and returns *)

(** What the loop of [doParse] has recorded when it ends normally. *)
Lemma loop_content (l : list std_string) (res0 res : t) :
  for_each Parser.doParse_entry l res0 = Ok res ->
  m_specific res
  = match filter (fun e => negb (is_excluded_entry e)) l with
    | [] => m_specific res0
    | e :: _ => e
    end
  /\ (forall fn,
        In fn (m_excluded res)
        <-> In fn (m_excluded res0)
            \/ In fn (map entry_name (filter is_excluded_entry l)))
  /\ forallb (fun e => valid_factory_name (entry_name e)) l = true.
Proof.
  revert res0; induction l as [|e l IH]; intros res0 Hrun; simpl in Hrun.
  - injection Hrun as <-. simpl. repeat split; tauto.
  - simpl. destruct (is_excluded_entry e) eqn:He; simpl.
    + rewrite (doParse_entry_excluded res0 e He) in Hrun.
      destruct (valid_factory_name (entry_name e)) eqn:Hv; [|discriminate].
      simpl in Hrun. apply IH in Hrun as (Hspec & Hex & Hval).
      split; [|split; [|exact Hval]].
      * rewrite Hspec. destruct (excludes res0 (entry_name e)); reflexivity.
      * intros fn. rewrite Hex.
        destruct (excludes res0 (entry_name e)) eqn:Hin; simpl.
        -- apply excludes_loop_In in Hin.
           split; [tauto|]. intros [H|[<-|H]]; tauto.
        -- rewrite in_app_iff. simpl. tauto.
    + rewrite (doParse_entry_required res0 e He) in Hrun.
      destruct (valid_factory_name e) eqn:Hv; [|discriminate].
      destruct (empty (m_specific res0)); [|discriminate].
      simpl in Hrun.
      pose proof (loop_Ok_bounds_required _ _ _ Hrun) as Hbound.
      apply IH in Hrun as (Hspec & Hex & Hval). simpl in *.
      destruct (valid_factory_name_plain e Hv) as (Hne & _).
      apply empty_false in Hne. rewrite Hne in Hbound.
      rewrite (entry_name_required e He), Hv.
      split; [|split; [exact Hex|exact Hval]].
      rewrite Hspec.
      destruct (filter (fun e0 => negb (is_excluded_entry e0)) l);
        [reflexivity | simpl in Hbound; lia].
Qed.

(** Entries with valid names, at most one of them required, pass the loop. *)
Lemma loop_accepts (l : list std_string) (res0 : t) :
  forallb (fun e => valid_factory_name (entry_name e)) l = true ->
  List.length (filter (fun e => negb (is_excluded_entry e)) l)
  + (if empty (m_specific res0) then 0 else 1) <= 1 ->
  exists res, for_each Parser.doParse_entry l res0 = Ok res.
Proof.
  revert res0; induction l as [|e l IH]; intros res0 Hval Hcount; simpl in *.
  - eauto.
  - apply andb_true_iff in Hval as [Hv Hval].
    destruct (is_excluded_entry e) eqn:He; simpl in Hcount.
    + rewrite (doParse_entry_excluded res0 e He), Hv. simpl.
      apply IH; [exact Hval|].
      destruct (excludes res0 (entry_name e)); exact Hcount.
    + rewrite (entry_name_required e He) in Hv.
      rewrite (doParse_entry_required res0 e He), Hv.
      destruct (empty (m_specific res0)); [|lia]. simpl.
      apply IH; [exact Hval|]. simpl. destruct (empty e); lia.
Qed.

(** Excluded names without repetition are recorded in the order of the
    text. *)
Lemma loop_excluded_order (l : list std_string) (res0 res : t) :
  for_each Parser.doParse_entry l res0 = Ok res ->
  NoDup (m_excluded res0 ++ map entry_name (filter is_excluded_entry l)) ->
  m_excluded res
  = m_excluded res0 ++ map entry_name (filter is_excluded_entry l).
Proof.
  revert res0; induction l as [|e l IH]; intros res0 Hrun Hnd; simpl in *.
  - injection Hrun as <-. rewrite app_nil_r. reflexivity.
  - destruct (is_excluded_entry e) eqn:He; simpl in *.
    + rewrite (doParse_entry_excluded res0 e He) in Hrun.
      destruct (valid_factory_name (entry_name e)); [|discriminate].
      assert (Hnot : excludes res0 (entry_name e) = false).
      { apply excludes_loop_not_In. intros Hin.
        apply NoDup_remove_2 in Hnd. apply Hnd, in_or_app. left. exact Hin. }
      rewrite Hnot in Hrun. simpl in Hrun.
      apply IH in Hrun; simpl in *.
      * rewrite Hrun, <- app_assoc. reflexivity.
      * rewrite <- app_assoc. exact Hnd.
    + rewrite (doParse_entry_required res0 e He) in Hrun.
      destruct (valid_factory_name e); [|discriminate].
      destruct (empty (m_specific res0)); [|discriminate].
      simpl in Hrun. apply IH in Hrun; simpl in *; assumption.
Qed.

Lemma doParse_Ok_inv (sv : std_string) (r : t) :
  Parser.doParse sv = Ok r ->
  for_each Parser.doParse_entry (request_entries sv) default = Ok r
  /\ negb (empty (m_specific r)) && excludes r (m_specific r) = false.
Proof.
  unfold Parser.doParse, request_entries.
  destruct (for_each _ _ _) as [res|err]; simpl; [|discriminate].
  destruct (negb (empty (m_specific res)) && excludes res (m_specific res))
    eqn:Hcheck; [discriminate|].
  intros H. injection H as <-. split; [reflexivity | exact Hcheck].
Qed.

(** X8. What an accepted text means: the specific request is the one
    required entry of the text (none if there is none), the request excludes
    exactly the names of the excluded entries, and when no name is excluded
    twice the excluded names are stored in the order of the text. *)
Theorem doParse_result_content (sv : std_string) (r : t) :
  Parser.doParse sv = Ok r ->
  specificRequest r = hd [] (required_entries sv)
  /\ (forall fn, excludes r fn = true <-> In fn (excluded_names sv))
  /\ NoDup (m_excluded r)
  /\ (NoDup (excluded_names sv) -> m_excluded r = excluded_names sv).
Proof.
  intros Hparse.
  pose proof (doParse_well_formed sv r Hparse) as (_ & _ & Hnd).
  apply doParse_Ok_inv in Hparse as [Hrun _].
  pose proof (loop_content _ _ _ Hrun) as (Hspec & Hex & _).
  split; [|split; [|split; [exact Hnd|]]].
  - unfold specificRequest, required_entries. rewrite Hspec.
    destruct (filter _ (request_entries sv)); reflexivity.
  - intros fn. unfold excludes. rewrite excludes_loop_In, Hex. simpl.
    unfold excluded_names. tauto.
  - intros Hnames. apply (loop_excluded_order _ _ _ Hrun). exact Hnames.
Qed.

Lemma doParse_result_content_witness :
  specificRequest (mk (lit "a") [lit "b"; lit "c"]) = lit "a"
  /\ m_excluded (mk (lit "a") [lit "b"; lit "c"]) = [lit "b"; lit "c"].
Proof.
  destruct (doParse_result_content (lit "!b @ a@! c")
              (mk (lit "a") [lit "b"; lit "c"]) eq_refl)
    as (Hspec & _ & _ & Horder).
  split; [exact Hspec|]. apply Horder.
  repeat (constructor;
          [intros H; repeat (destruct H as [H|H]; [discriminate H|]); exact H|]).
  constructor.
Defined.

(** X9. [doParse] accepts a text exactly when every entry carries a valid
    factory name, at most one entry is required, and the required name is
    not among the excluded ones. *)
Theorem doParse_accepts_iff (sv : std_string) :
  (exists r, Parser.doParse sv = Ok r)
  <-> forallb (fun e => valid_factory_name (entry_name e)) (request_entries sv)
      = true
      /\ List.length (required_entries sv) <= 1
      /\ (forall e, In e (required_entries sv) -> ~ In e (excluded_names sv)).
Proof.
  split.
  - intros [r Hparse]. apply doParse_Ok_inv in Hparse as [Hrun Hcheck].
    pose proof (loop_content _ _ _ Hrun) as (Hspec & Hex & Hval).
    pose proof (loop_Ok_bounds_required _ _ _ Hrun) as Hbound.
    simpl in Hbound. fold (required_entries sv) in Hspec, Hbound.
    split; [exact Hval|]. split; [lia|].
    intros e He Hin.
    destruct (required_entries sv) as [|e0 [|e1 rest]] eqn:Hreq;
      [contradiction | | simpl in Hbound; lia].
    destruct He as [<-|[]].
    assert (Hreq_in : In e0 (required_entries sv))
      by (rewrite Hreq; left; reflexivity).
    unfold required_entries in Hreq_in.
    apply filter_In in Hreq_in as [Hentry Hkind].
    apply negb_true_iff in Hkind.
    rewrite forallb_forall in Hval. specialize (Hval e0 Hentry).
    rewrite (entry_name_required e0 Hkind) in Hval.
    destruct (valid_factory_name_plain e0 Hval) as (Hne & _).
    apply empty_false in Hne. rewrite Hspec, Hne in Hcheck. simpl in Hcheck.
    apply excludes_loop_not_In in Hcheck. apply Hcheck.
    apply Hex. right. exact Hin.
  - intros (Hval & Hone & Hself).
    destruct (loop_accepts (request_entries sv) default Hval) as [res Hrun].
    { simpl. fold (required_entries sv). lia. }
    pose proof (loop_content _ _ _ Hrun) as (Hspec & Hex & _).
    fold (required_entries sv) in Hspec.
    exists res. unfold Parser.doParse. fold (request_entries sv).
    rewrite Hrun. simpl.
    destruct (empty (m_specific res)) eqn:Hem; [reflexivity|]. simpl.
    destruct (excludes res (m_specific res)) eqn:Hin; [|reflexivity].
    exfalso. apply excludes_loop_In, Hex in Hin. simpl in Hin.
    destruct Hin as [[]|Hin].
    destruct (required_entries sv) as [|e0 rest] eqn:Hreq.
    + rewrite Hspec in Hem. discriminate.
    + apply (Hself e0); [left; reflexivity|]. rewrite <- Hspec. exact Hin.
Qed.

(** X10. A text whose entries all carry valid names, with exactly one
    required entry that is also excluded, is rejected with the message that
    the factory is both required and excluded. *)
Theorem doParse_required_and_excluded (sv a : std_string) :
  forallb (fun e => valid_factory_name (entry_name e)) (request_entries sv)
  = true ->
  required_entries sv = [a] ->
  In a (excluded_names sv) ->
  Parser.doParse sv
  = Throw (BadInput (Parser.required_and_excluded_msg a)).
Proof.
  intros Hval Hreq Hin.
  destruct (loop_accepts (request_entries sv) default Hval) as [res Hrun].
  { simpl. fold (required_entries sv). rewrite Hreq. simpl. lia. }
  pose proof (loop_content _ _ _ Hrun) as (Hspec & Hex & _).
  fold (required_entries sv) in Hspec. rewrite Hreq in Hspec.
  assert (Ha : In a (required_entries sv)) by (rewrite Hreq; left; reflexivity).
  unfold required_entries in Ha. apply filter_In in Ha as [Hentry Hkind].
  apply negb_true_iff in Hkind.
  rewrite forallb_forall in Hval. specialize (Hval a Hentry).
  rewrite (entry_name_required a Hkind) in Hval.
  destruct (valid_factory_name_plain a Hval) as (Hne & _).
  apply empty_false in Hne.
  assert (Hexcl : excludes res a = true)
    by (apply excludes_loop_In, Hex; right; exact Hin).
  unfold Parser.doParse. fold (request_entries sv).
  rewrite Hrun. simpl. rewrite Hspec, Hne, Hexcl. reflexivity.
Qed.

Lemma doParse_required_and_excluded_witness :
  Parser.doParse (lit "!b@a@!a")
  = Throw (BadInput (Parser.required_and_excluded_msg (lit "a"))).
Proof.
  apply (doParse_required_and_excluded (lit "!b@a@!a") (lit "a")).
  - reflexivity.
  - reflexivity.
  - right. left. reflexivity.
Defined.

(** Cutting a string made of cut points and characters with a property
    gives pieces with that property. *)
Lemma split_by_pieces (p q : ascii -> bool) (s : std_string) :
  forallb (fun c => p c || q c) s = true ->
  Forall (fun piece => forallb q piece = true) (StrView.split_by p s).
Proof.
  induction s as [|c t IH]; simpl; intros H.
  - constructor; [reflexivity | constructor].
  - apply andb_true_iff in H as [Hc Ht]. specialize (IH Ht).
    destruct (p c); simpl in Hc.
    + constructor; [reflexivity | exact IH].
    + destruct (StrView.split_by p t) as [|piece pieces].
      * constructor; [simpl; rewrite Hc; reflexivity | constructor].
      * inversion IH as [|? ? Hpiece Hpieces]; subst.
        constructor; [simpl; rewrite Hc, Hpiece; reflexivity | exact Hpieces].
Qed.

Lemma trimmed_whitespace (s : std_string) :
  forallb StrView.isWhiteSpace s = true -> StrView.trimmed s = [].
Proof.
  intros H. unfold StrView.trimmed.
  assert (Hl : StrView.ltrimmed s = []).
  { induction s as [|c t IH]; simpl in *; [reflexivity|].
    apply andb_true_iff in H as [Hc Ht]. rewrite Hc. exact (IH Ht). }
  rewrite Hl. reflexivity.
Qed.

Lemma request_entries_blank (sv : std_string) :
  forallb request_blank sv = true -> request_entries sv = [].
Proof.
  intros H. unfold request_entries, StrView.splitTrimmedNoEmpty.
  assert (Hpieces : Forall (fun piece => forallb StrView.isWhiteSpace piece = true)
                      (StrView.split_by (Ascii.eqb "@"%char) sv)).
  { apply split_by_pieces. rewrite forallb_forall in *. intros c Hc.
    specialize (H c Hc). unfold request_blank in H. rewrite orb_comm. exact H. }
  induction Hpieces as [|piece pieces Hpiece _ IH]; simpl; [reflexivity|].
  rewrite (trimmed_whitespace piece Hpiece). exact IH.
Qed.

(** X11. A text made of nothing but whitespace and [@] signs, the empty text
    among them, parses to the request without specific request and without
    exclusions. *)
Theorem doParse_blank (sv : std_string) :
  forallb request_blank sv = true ->
  Parser.doParse sv = Ok default
  /\ hasSpecificRequest default = false
  /\ forall fn, excludes default fn = false.
Proof.
  intros H. unfold Parser.doParse. fold (request_entries sv).
  rewrite (request_entries_blank sv H). repeat split.
Qed.

Lemma doParse_blank_witness :
  Parser.doParse (lit " @@  @ ") = Ok default
  /\ hasSpecificRequest default = false
  /\ forall fn, excludes default fn = false.
Proof. apply (doParse_blank (lit " @@  @ ")). reflexivity. Defined.

(** X12. The order and the repetition of excluded entries do not matter:
    two accepted texts with the same required entries and the same set of
    excluded names give semantically equal requests. *)
Theorem doParse_order_insensitive (sv1 sv2 : std_string) (r1 r2 : t) :
  Parser.doParse sv1 = Ok r1 ->
  Parser.doParse sv2 = Ok r2 ->
  required_entries sv1 = required_entries sv2 ->
  (forall fn, In fn (excluded_names sv1) <-> In fn (excluded_names sv2)) ->
  same_request r1 r2.
Proof.
  intros H1 H2 Hreq Hnames.
  apply doParse_Ok_inv in H1 as [Hrun1 _].
  apply doParse_Ok_inv in H2 as [Hrun2 _].
  pose proof (loop_content _ _ _ Hrun1) as (Hspec1 & Hex1 & _).
  pose proof (loop_content _ _ _ Hrun2) as (Hspec2 & Hex2 & _).
  fold (required_entries sv1) in Hspec1. fold (required_entries sv2) in Hspec2.
  fold (excluded_names sv1) in Hex1. fold (excluded_names sv2) in Hex2.
  split.
  - rewrite Hspec1, Hspec2, Hreq. reflexivity.
  - intros fn. unfold excludes.
    destruct (excludes_loop (m_excluded r1) fn) eqn:E1;
      destruct (excludes_loop (m_excluded r2) fn) eqn:E2; try reflexivity; exfalso.
    + apply excludes_loop_In, Hex1 in E1. apply excludes_loop_not_In in E2.
      apply E2, Hex2. right. apply Hnames. simpl in E1. tauto.
    + apply excludes_loop_In, Hex2 in E2. apply excludes_loop_not_In in E1.
      apply E1, Hex1. right. apply Hnames. simpl in E2. tauto.
Qed.

Lemma doParse_order_insensitive_witness :
  same_request (mk (lit "a") [lit "b"; lit "c"]) (mk (lit "a") [lit "c"; lit "b"]).
Proof.
  apply (doParse_order_insensitive (lit "a@!b@!c@!b") (lit "!c@!b@a")).
  - reflexivity.
  - reflexivity.
  - reflexivity.
  - intros fn. simpl. tauto.
Defined.

(** X13. The value stored for a factory variable is canonical: when
    [str2val] accepts a text, it accepts the value it returned and returns
    it unchanged.  (The rendering [to_string] is the one modelled above.) *)
Theorem factory_str2val_idempotent (name sv stored : std_string) :
  factory_str2val name sv = Ok stored ->
  factory_str2val name stored = Ok stored.
Proof.
  unfold factory_str2val.
  destruct (Parser.doParse sv) as [r|err] eqn:Hparse; [|discriminate].
  intros H. injection H as <-.
  rewrite (doParse_to_string r (doParse_well_formed sv r Hparse)
             (doParse_specific_not_excluded sv r Hparse)).
  reflexivity.
Qed.

Lemma factory_str2val_idempotent_witness :
  vardef_scatfactory.str2val (lit "a@!b@!c") = Ok (lit "a@!b@!c").
Proof.
  apply (factory_str2val_idempotent vardef_scatfactory.name
           (lit " !b@ a @@!c @ ! b")).
  reflexivity.
Defined.

(** *** The atomdb parser: accepted values *)

Lemma joinstr_merge (a b sep : std_string) (rest : list std_string) :
  joinstr ((a ++ sep ++ b) :: rest) sep = joinstr (a :: b :: rest) sep.
Proof. destruct rest; simpl; rewrite <- ?app_assoc; reflexivity. Qed.

Lemma joinstr_app (l1 l2 : list std_string) (sep : std_string) :
  l1 <> [] -> l2 <> [] ->
  joinstr (l1 ++ l2) sep = joinstr l1 sep ++ sep ++ joinstr l2 sep.
Proof.
  intros H1 H2. induction l1 as [|a l1 IH]; [congruence|].
  destruct l1 as [|b l1].
  - destruct l2; [congruence | reflexivity].
  - change (joinstr ((a :: b :: l1) ++ l2) sep)
      with (a ++ sep ++ joinstr ((b :: l1) ++ l2) sep).
    rewrite IH by discriminate.
    change (joinstr (a :: b :: l1) sep) with (a ++ sep ++ joinstr (b :: l1) sep).
    rewrite <- !app_assoc. reflexivity.
Qed.

Lemma forallb_joinstr (q : ascii -> bool) (parts : list std_string)
  (sep : std_string) :
  Forall (fun p => forallb q p = true) parts ->
  forallb q sep = true ->
  forallb q (joinstr parts sep) = true.
Proof.
  intros Hparts Hsep. induction Hparts as [|p rest Hp _ IH]; [reflexivity|].
  destruct rest as [|p' rest]; [exact Hp|].
  change (joinstr (p :: p' :: rest) sep)
    with (p ++ sep ++ joinstr (p' :: rest) sep).
  rewrite !forallb_app, Hp, Hsep, IH. reflexivity.
Qed.

(** What the loop over the normalised lines has seen and built when it ends
    normally. *)
Lemma accumulate_loop_inv validateAtomDBLine
  (lines : list std_string) (result out : std_string) :
  for_each (atomdb_accumulate validateAtomDBLine) lines result = Ok out ->
  Forall (fun l => l <> []) lines ->
  Forall (line_valid validateAtomDBLine) lines
  /\ ~ In nodefaults (if empty result then tl lines else lines)
  /\ out = joinstr ((if empty result then [] else [result]) ++ lines) (lit "@").
Proof.
  revert result; induction lines as [|l lines IH]; intros result Hrun Hne;
    simpl in Hrun.
  - injection Hrun as <-. split; [constructor|]. split.
    + destruct (empty result); simpl; tauto.
    + destruct result; reflexivity.
  - inversion Hne as [|? ? Hl Hne']; subst.
    destruct (atomdb_accumulate validateAtomDBLine result l) as [r1|] eqn:Hstep;
      [|discriminate].
    simpl in Hrun.
    pose proof (accumulate_nonempty _ _ _ _ Hstep Hl) as Hr1.
    apply IH in Hrun as (Hval & Hno & Hout); [|exact Hne'].
    apply empty_false in Hr1. rewrite Hr1 in Hno, Hout.
    unfold atomdb_accumulate in Hstep.
    destruct (validateAtomDBLine (split2 l ":")) as [u|] eqn:Hv; [|discriminate].
    destruct (streq l nodefaults && negb (empty result)) eqn:Hcond;
      [discriminate|].
    injection Hstep as <-.
    split; [constructor; [exists u; exact Hv | exact Hval]|].
    destruct (empty result) eqn:Hem; simpl in *.
    + apply empty_true in Hem. subst result. split; [exact Hno | exact Hout].
    + rewrite andb_true_r in Hcond. apply streq_neq in Hcond.
      split; [intros [H|H]; [congruence | contradiction]|].
      rewrite Hout, <- app_assoc. apply joinstr_merge.
Qed.

Lemma accumulate_loop_ok validateAtomDBLine (lines : list std_string) :
  Forall (fun l => l <> []) lines ->
  atomdb_lines_ok validateAtomDBLine lines ->
  for_each (atomdb_accumulate validateAtomDBLine) lines []
  = Ok (joinstr lines (lit "@")).
Proof.
  intros Hne [Hval Hno]. destruct lines as [|l lines]; [reflexivity|].
  inversion Hne as [|? ? Hl Hne']; subst.
  inversion Hval as [|? ? [u Hv] Hval']; subst.
  simpl for_each. unfold atomdb_accumulate at 1. rewrite Hv, andb_false_r.
  simpl. apply accumulate_loop_valid; assumption.
Qed.

(** X14. [str2val] of atomdb accepts a text exactly when every normalised
    line passes the line validator and nodefaults occurs at most as the
    first normalised line; the value is then the normalised lines joined by
    [@]. *)
Theorem atomdb_str2val_accepts_iff
  (validateAtomDBLine : list std_string -> Result unit) (sv out : std_string) :
  str2val validateAtomDBLine sv = Ok out
  <-> atomdb_lines_ok validateAtomDBLine (normalised_lines sv)
      /\ out = joinstr (normalised_lines sv) (lit "@").
Proof.
  rewrite str2val_normalised_lines. split.
  - intros Hrun.
    destruct (accumulate_loop_inv _ _ _ _ Hrun (normalised_lines_nonempty sv))
      as (Hval & Hno & Hout).
    split; [split; assumption | exact Hout].
  - intros [Hok ->].
    apply accumulate_loop_ok; [apply normalised_lines_nonempty | exact Hok].
Qed.

(** X15. The first normalised line that the line validator refuses, after
    lines that are all accepted, decides the error: BadInput quoting that
    normalised line, followed by the message of the validator. *)
Theorem atomdb_first_invalid_line
  (validateAtomDBLine : list std_string -> Result unit)
  (sv : std_string) (pre post : list std_string) (l : std_string) (e : Error) :
  normalised_lines sv = pre ++ l :: post ->
  atomdb_lines_ok validateAtomDBLine pre ->
  validateAtomDBLine (split2 l ":"%char) = Throw e ->
  str2val validateAtomDBLine sv
  = Throw (BadInput
             (lit "Invalid entry in atomdb cfg parameter in the line: "
              ++ dq ++ l ++ dq ++ lit ". Error is: " ++ what e)).
Proof.
  intros Hlines Hok Hthrow.
  pose proof (normalised_lines_nonempty sv) as Hne.
  rewrite str2val_normalised_lines, Hlines in *.
  apply Forall_app in Hne as [Hne _].
  rewrite for_each_app, (accumulate_loop_ok _ pre Hne Hok). simpl.
  unfold atomdb_accumulate. rewrite Hthrow. reflexivity.
Qed.

Lemma atomdb_first_invalid_line_witness :
  str2val (fun words =>
             if streq (hd [] words) (lit "X") then Throw (BadInput (lit "no X"))
             else Ok tt)
          (lit "H is H@ X::is  D @nodefaults")
  = Throw (BadInput
             (lit "Invalid entry in atomdb cfg parameter in the line: "
              ++ dq ++ lit "X:is:D" ++ dq ++ lit ". Error is: " ++ lit "no X")).
Proof.
  apply (atomdb_first_invalid_line _ (lit "H is H@ X::is  D @nodefaults")
           [lit "H:is:H"] [lit "nodefaults"] (lit "X:is:D")
           (BadInput (lit "no X"))).
  - reflexivity.
  - split; [constructor; [exists tt; reflexivity | constructor]|].
    intros [].
  - reflexivity.
Defined.

(** *** The atomdb parser: the shape of the value *)

Lemma split_by_joinstr_sep (p : ascii -> bool) (c : ascii)
  (parts : list std_string) :
  p c = true -> parts <> [] ->
  Forall (fun w => forallb (fun x => negb (p x)) w = true) parts ->
  StrView.split_by p (joinstr parts [c]) = parts.
Proof.
  intros Hc. induction parts as [|w rest IH]; [congruence|].
  intros _ Hall. inversion Hall as [|? ? Hw Hrest]; subst.
  destruct rest as [|w' rest].
  - simpl. apply split_by_no_cut. exact Hw.
  - change (joinstr (w :: w' :: rest) [c])
      with (w ++ c :: joinstr (w' :: rest) [c]).
    rewrite (split_by_app p w _ c Hc), (split_by_no_cut p w Hw).
    rewrite IH by (auto; discriminate). reflexivity.
Qed.

(** The words of a piece between [@] signs are non-empty and free of
    whitespace, [:] and [@]. *)
Lemma line_words_plain (piece : std_string) :
  forallb (fun c => negb (Ascii.eqb "@"%char c)) piece = true ->
  Forall (fun w => w <> [] /\ forallb (fun c => negb (atomdb_blank c)) w = true)
         (line_words piece).
Proof.
  intros Hpiece. apply Forall_forall. intros w Hw.
  unfold line_words in Hw. apply filter_In in Hw as [Hin Hne].
  split.
  - apply empty_false. unfold StrView.nonempty in Hne.
    apply negb_true_iff in Hne. exact Hne.
  - assert (Hall : Forall (fun w => forallb (fun c => negb (atomdb_blank c)) w = true)
                     (StrView.split_by line_space piece)).
    { apply split_by_pieces. rewrite forallb_forall in *. intros c Hc.
      specialize (Hpiece c Hc). unfold atomdb_blank.
      apply negb_true_iff in Hpiece. rewrite Hpiece, orb_false_r.
      destruct (line_space c); reflexivity. }
    rewrite Forall_forall in Hall. exact (Hall w Hin).
Qed.

Lemma not_blank_not_space (w : std_string) :
  forallb (fun c => negb (atomdb_blank c)) w = true ->
  forallb (fun c => negb (line_space c)) w = true
  /\ forallb (fun c => negb (Ascii.eqb "@"%char c)) w = true
  /\ forallb (fun c => negb (StrView.isWhiteSpace c)) w = true.
Proof.
  intros H. rewrite !forallb_forall in *.
  repeat split; intros c Hc; specialize (H c Hc);
    apply negb_true_iff in H; unfold atomdb_blank, line_space in H;
    apply orb_false_iff in H as [H1 H2];
    apply orb_false_iff in H1 as [H0 H1];
    unfold line_space; rewrite ?H0, ?H1, ?H2; reflexivity.
Qed.

(** A line built from words: it has no [@], and its words are found again. *)
Lemma line_of_words (words : list std_string) :
  words <> [] ->
  Forall (fun w => w <> [] /\ forallb (fun c => negb (atomdb_blank c)) w = true)
         words ->
  forallb (fun c => negb (Ascii.eqb "@"%char c)) (joinstr words (lit ":")) = true
  /\ forallb (fun c => negb (StrView.isWhiteSpace c)) (joinstr words (lit ":"))
     = true
  /\ line_words (joinstr words (lit ":")) = words.
Proof.
  intros Hne Hwords. split; [|split].
  - apply forallb_joinstr; [|reflexivity].
    eapply Forall_impl; [|exact Hwords]. simpl. intros w [_ Hw].
    apply (not_blank_not_space w Hw).
  - apply forallb_joinstr; [|reflexivity].
    eapply Forall_impl; [|exact Hwords]. simpl. intros w [_ Hw].
    apply (not_blank_not_space w Hw).
  - unfold line_words. change (lit ":") with [":"%char].
    rewrite (split_by_joinstr_sep line_space ":"%char words eq_refl Hne).
    + clear Hne. induction Hwords as [|w rest [Hw _] _ IH]; [reflexivity|].
      simpl. apply empty_false in Hw. unfold StrView.nonempty at 1.
      rewrite Hw. simpl. f_equal. exact IH.
    + eapply Forall_impl; [|exact Hwords]. simpl. intros w [_ Hw].
      apply (not_blank_not_space w Hw).
Qed.

(** The normalised lines are lines built from non-empty lists of words. *)
Lemma normalised_lines_shape (sv : std_string) :
  exists word_lists,
    normalised_lines sv = map (fun parts => joinstr parts (lit ":")) word_lists
    /\ Forall (fun words =>
                 words <> []
                 /\ Forall (fun w => w <> []
                                     /\ forallb (fun c => negb (atomdb_blank c)) w
                                        = true) words)
              word_lists.
Proof.
  rewrite normalised_lines_words.
  eexists. split; [reflexivity|].
  apply Forall_forall. intros words Hwords.
  apply filter_In in Hwords as [Hin Hne].
  apply in_map_iff in Hin as (piece & <- & Hpiece).
  split; [destruct (line_words piece); [discriminate | discriminate]|].
  apply line_words_plain.
  pose proof (split_by_pieces (Ascii.eqb "@"%char)
                (fun c => negb (Ascii.eqb "@"%char c)) sv) as Hpieces.
  rewrite Forall_forall in Hpieces. apply Hpieces; [|exact Hpiece].
  apply forallb_forall. intros c _. destruct (Ascii.eqb "@"%char c); reflexivity.
Qed.

(** The value built from the normalised lines has these very lines as its
    normalised lines. *)
Lemma normalised_lines_canonical (sv : std_string) :
  normalised_lines (joinstr (normalised_lines sv) (lit "@")) = normalised_lines sv.
Proof.
  destruct (normalised_lines_shape sv) as (word_lists & -> & Hshape).
  destruct word_lists as [|words0 rest0] eqn:Hwl; [reflexivity|].
  rewrite <- Hwl in *. rewrite normalised_lines_words.
  change (lit "@") with ["@"%char].
  rewrite (split_by_joinstr_sep (Ascii.eqb "@"%char) "@"%char).
  - assert (Hgoal : forall wl,
      Forall (fun words =>
                words <> []
                /\ Forall (fun w => w <> []
                                    /\ forallb (fun c => negb (atomdb_blank c)) w
                                       = true) words) wl ->
      filter (fun parts => match parts with [] => false | _ :: _ => true end)
        (map line_words (map (fun parts => joinstr parts (lit ":")) wl)) = wl).
    { intros wl Hwl'. induction Hwl' as [|words rest [Hne Hwords] _ IH];
        [reflexivity|].
      cbn [map filter].
      destruct (line_of_words words Hne Hwords) as (_ & _ & Heq).
      rewrite Heq. destruct words; [congruence|]. f_equal. exact IH. }
    rewrite (Hgoal word_lists Hshape). reflexivity.
  - reflexivity.
  - rewrite Hwl. discriminate.
  - apply Forall_map. eapply Forall_impl; [|exact Hshape]. simpl.
    intros words [Hne Hwords]. apply (line_of_words words Hne Hwords).
Qed.

(** X16. The value stored for atomdb is canonical: when [str2val] accepts a
    text, it accepts the value it returned and returns it unchanged. *)
Theorem atomdb_str2val_idempotent
  (validateAtomDBLine : list std_string -> Result unit) (sv stored : std_string) :
  str2val validateAtomDBLine sv = Ok stored ->
  str2val validateAtomDBLine stored = Ok stored.
Proof.
  intros Hrun.
  pose proof Hrun as Hrun'.
  rewrite str2val_normalised_lines in Hrun'.
  destruct (accumulate_loop_inv _ _ _ _ Hrun' (normalised_lines_nonempty sv))
    as (_ & _ & Hout). simpl in Hout.
  rewrite str2val_normalised_lines, Hout, normalised_lines_canonical, <- Hout.
  exact Hrun'.
Qed.

Lemma atomdb_str2val_idempotent_witness :
  str2val accept_all_lines (lit "nodefaults@H:is:H") = Ok (lit "nodefaults@H:is:H").
Proof.
  apply (atomdb_str2val_idempotent accept_all_lines
           (lit " nodefaults : @@ H  is:H ")).
  reflexivity.
Defined.

(** X17. An accepted atomdb value contains no whitespace: the words of a
    line are separated by single [:] and the lines by single [@]. *)
Theorem atomdb_value_without_whitespace
  (validateAtomDBLine : list std_string -> Result unit) (sv stored : std_string) :
  str2val validateAtomDBLine sv = Ok stored ->
  forallb (fun c => negb (StrView.isWhiteSpace c)) stored = true.
Proof.
  intros Hrun. rewrite str2val_normalised_lines in Hrun.
  destruct (accumulate_loop_inv _ _ _ _ Hrun (normalised_lines_nonempty sv))
    as (_ & _ & ->). simpl.
  destruct (normalised_lines_shape sv) as (word_lists & -> & Hshape).
  apply forallb_joinstr; [|reflexivity].
  apply Forall_map. eapply Forall_impl; [|exact Hshape]. simpl.
  intros words [Hne Hwords]. apply (line_of_words words Hne Hwords).
Qed.

Lemma atomdb_value_without_whitespace_witness :
  forallb (fun c => negb (StrView.isWhiteSpace c)) (lit "H:is:H@D:is:H2") = true.
Proof.
  apply (atomdb_value_without_whitespace accept_all_lines
           (lit "  H  is H @ D is :: H2 ")).
  reflexivity.
Defined.

Lemma split_by_only_cuts (p : ascii -> bool) (s : std_string) :
  forallb p s = true ->
  Forall (fun piece => piece = []) (StrView.split_by p s).
Proof.
  intros H.
  assert (Hq : Forall (fun piece => forallb (fun _ => false) piece = true)
                 (StrView.split_by p s)).
  { apply split_by_pieces. rewrite forallb_forall in *. intros c Hc.
    rewrite (H c Hc). reflexivity. }
  eapply Forall_impl; [|exact Hq]. simpl.
  intros [|c piece]; [reflexivity | discriminate].
Qed.

Lemma line_words_blank (piece : std_string) :
  forallb line_space piece = true -> line_words piece = [].
Proof.
  intros H. unfold line_words.
  pose proof (split_by_only_cuts line_space piece H) as Hall.
  induction Hall as [|x l -> _ IH]; [reflexivity | exact IH].
Qed.

Lemma normalised_lines_blank (sv : std_string) :
  forallb atomdb_blank sv = true -> normalised_lines sv = [].
Proof.
  intros H. rewrite normalised_lines_words.
  assert (Hpieces : Forall (fun piece => forallb line_space piece = true)
                      (StrView.split_by (Ascii.eqb "@"%char) sv)).
  { apply split_by_pieces. rewrite forallb_forall in *. intros c Hc.
    specialize (H c Hc). unfold atomdb_blank in H. rewrite orb_comm. exact H. }
  induction Hpieces as [|piece pieces Hpiece _ IH]; [reflexivity|].
  simpl. rewrite (line_words_blank piece Hpiece). exact IH.
Qed.

(** X18. A text made of nothing but whitespace, [:] and [@], the empty text
    among them, gives the empty atomdb value, and the line validator is not
    consulted: this holds even for a validator that refuses every line. *)
Theorem atomdb_str2val_blank
  (validateAtomDBLine : list std_string -> Result unit) (sv : std_string) :
  forallb atomdb_blank sv = true ->
  str2val validateAtomDBLine sv = Ok []
  /\ str2val (fun _ => Throw (BadInput [])) sv = Ok [].
Proof.
  intros H. rewrite !str2val_normalised_lines, (normalised_lines_blank sv H).
  split; reflexivity.
Qed.

Lemma atomdb_str2val_blank_witness :
  str2val accept_all_lines (lit " : @@ :: @") = Ok []
  /\ str2val (fun _ => Throw (BadInput [])) (lit " : @@ :: @") = Ok [].
Proof.
  apply (atomdb_str2val_blank accept_all_lines (lit " : @@ :: @")).
  reflexivity.
Defined.

Lemma normalised_lines_concat (a b : std_string) :
  normalised_lines (a ++ "@"%char :: b) = normalised_lines a ++ normalised_lines b.
Proof.
  rewrite !normalised_lines_words.
  rewrite (split_by_app _ a b "@"%char) by reflexivity.
  rewrite map_app, filter_app, map_app. reflexivity.
Qed.

Lemma joinstr_lines_nil (lines : list std_string) (sep : std_string) :
  joinstr lines sep <> [] -> lines <> [].
Proof. intros H ->. apply H. reflexivity. Qed.

(** X19. Putting two accepted non-empty atomdb texts one after the other
    with an [@] in between: when the second has no nodefaults line, the
    result is the two values with an [@] in between; when it has one, the
    combined text is rejected (nodefaults would no longer be first). *)
Theorem atomdb_str2val_concat
  (validateAtomDBLine : list std_string -> Result unit)
  (a b ra rb : std_string) :
  str2val validateAtomDBLine a = Ok ra ->
  str2val validateAtomDBLine b = Ok rb ->
  ra <> [] -> rb <> [] ->
  (~ In nodefaults (normalised_lines b) ->
   str2val validateAtomDBLine (a ++ "@"%char :: b) = Ok (ra ++ lit "@" ++ rb))
  /\ (In nodefaults (normalised_lines b) ->
      throws (str2val validateAtomDBLine (a ++ "@"%char :: b))).
Proof.
  intros Ha Hb Hra Hrb.
  rewrite str2val_normalised_lines in Ha, Hb.
  destruct (accumulate_loop_inv _ _ _ _ Ha (normalised_lines_nonempty a))
    as (Hva & Hnoa & Houta).
  destruct (accumulate_loop_inv _ _ _ _ Hb (normalised_lines_nonempty b))
    as (Hvb & Hnob & Houtb).
  simpl in *. subst ra rb.
  pose proof (joinstr_lines_nil _ _ Hra) as Hla.
  pose proof (joinstr_lines_nil _ _ Hrb) as Hlb.
  rewrite str2val_normalised_lines, normalised_lines_concat.
  split.
  - intros Hno.
    rewrite accumulate_loop_ok.
    + rewrite (joinstr_app _ _ (lit "@") Hla Hlb). reflexivity.
    + apply Forall_app. split; apply normalised_lines_nonempty.
    + split; [apply Forall_app; split; assumption|].
      destruct (normalised_lines a) as [|l la]; [congruence|]. simpl in *.
      intros Hin. apply in_app_or in Hin as [Hin|Hin]; contradiction.
  - intros Hin.
    destruct (for_each (atomdb_accumulate validateAtomDBLine)
                (normalised_lines a ++ normalised_lines b) [])
      as [out|err] eqn:Hrun; [|apply throws_Throw].
    exfalso.
    apply accumulate_loop_inv in Hrun as (_ & Hno & _).
    + simpl in Hno. apply Hno.
      destruct (normalised_lines a) as [|l la]; [congruence|]. simpl.
      apply in_or_app. right. exact Hin.
    + apply Forall_app. split; apply normalised_lines_nonempty.
Qed.

Lemma atomdb_str2val_concat_witness :
  str2val accept_all_lines (lit "nodefaults@H is H" ++ "@"%char :: lit "D:is:H2")
  = Ok (lit "nodefaults@H:is:H" ++ lit "@" ++ lit "D:is:H2")
  /\ throws (str2val accept_all_lines
               (lit "H is H" ++ "@"%char :: lit "nodefaults@D:is:H2")).
Proof.
  split.
  - apply (proj1 (atomdb_str2val_concat accept_all_lines
                    (lit "nodefaults@H is H") (lit "D:is:H2")
                    (lit "nodefaults@H:is:H") (lit "D:is:H2")
                    eq_refl eq_refl ltac:(discriminate) ltac:(discriminate))).
    intros [H|[]]. discriminate H.
  - apply (proj2 (atomdb_str2val_concat accept_all_lines
                    (lit "H is H") (lit "nodefaults@D:is:H2")
                    (lit "H:is:H") (lit "nodefaults@D:is:H2")
                    eq_refl eq_refl ltac:(discriminate) ltac:(discriminate))).
    left. reflexivity.
Defined.

(** *** The inelas variable: stored values *)

(** X20. The value stored for inelas is canonical: it is never one of the
    spellings none, sterile or false, it is a non-empty token of lowercase
    letters, digits and underscores, and [str2val] hands it back
    unchanged. *)
Theorem inelas_stored_value_canonical (sv stored : std_string) :
  vardef_inelas.str2val sv = Ok stored ->
  ~ In stored [lit "none"; lit "sterile"; lit "false"]
  /\ stored <> []
  /\ forallb lower_digit_underscore stored = true
  /\ vardef_inelas.str2val stored = Ok stored.
Proof.
  unfold vardef_inelas.str2val. rewrite contains_only_inelas.
  destruct (empty sv) eqn:Hem; [discriminate|].
  destruct (forallb lower_digit_underscore sv) eqn:Hchars; [|discriminate].
  cbn [orb negb].
  destruct (isOneOf sv [lit "none"; lit "0"; lit "sterile"; lit "false"]) eqn:Hone;
    intros H; injection H as <-.
  - repeat split; try discriminate.
    intros Hin. repeat (destruct Hin as [Hin|Hin]; [discriminate Hin|]).
    exact Hin.
  - rewrite contains_only_inelas, Hem, Hchars. cbn [orb negb]. rewrite Hone.
    repeat split.
    + intros Hin.
      assert (Hin' : In sv [lit "none"; lit "0"; lit "sterile"; lit "false"])
        by (simpl in *; tauto).
      apply isOneOf_In in Hin'. congruence.
    + apply empty_false. exact Hem.
Qed.

Lemma inelas_stored_value_canonical_witness :
  vardef_inelas.str2val (lit "0") = Ok (lit "0").
Proof.
  apply (inelas_stored_value_canonical (lit "sterile") (lit "0")).
  reflexivity.
Defined.

(** *** The table of variables: names and identifiers *)

Lemma constexpr_name2Idx_from_none (list : list VarInfo) (name : std_string)
  (idx : nat) :
  constexpr_name2Idx_from list name idx = None <-> ~ In name (map vi_name list).
Proof.
  revert idx; induction list as [|vi rest IH]; intros idx; simpl.
  - split; [tauto | reflexivity].
  - destruct (streq (vi_name vi) name) eqn:E.
    + apply streq_eq in E. split; [discriminate | tauto].
    + apply streq_neq in E. rewrite IH. tauto.
Qed.

Lemma constexpr_name2Idx_from_nth (list : list VarInfo) (vi : VarInfo)
  (idx k : nat) :
  NoDup (map vi_name list) ->
  nth_error list k = Some vi ->
  constexpr_name2Idx_from list (vi_name vi) idx = Some (idx + k).
Proof.
  revert idx k; induction list as [|vi0 rest IH]; intros idx k Hnd Hnth.
  - destruct k; discriminate.
  - simpl in Hnd. inversion Hnd as [|? ? Hnotin Hnd']; subst.
    destruct k as [|k]; simpl in *.
    + injection Hnth as ->. rewrite streq_refl, Nat.add_0_r. reflexivity.
    + assert (Hne : streq (vi_name vi0) (vi_name vi) = false).
      { apply streq_neq. intros E. apply Hnotin. rewrite E.
        apply in_map. eapply nth_error_In. exact Hnth. }
      rewrite Hne, (IH (S idx) k Hnd' Hnth). f_equal. lia.
Qed.

(** X21. Looking up a name that is not in the table finds nothing, and only
    such a name; an identifier that the lookup finds lies within the table,
    so that [varName] is defined for it and is the name looked up. *)
Theorem varIdFromName_unknown_name (name : std_string) :
  (varIdFromName name = None <-> ~ In name (map vi_name varlist))
  /\ (forall id, varIdFromName name = Some id ->
                 enumAsInt id < List.length varlist
                 /\ varName id = Some name).
Proof.
  unfold varIdFromName, constexpr_varIdFromName, constexpr_varName2Idx,
    constexpr_name2Idx.
  split.
  - rewrite <- (constexpr_name2Idx_from_none varlist name 0).
    destruct (constexpr_name2Idx_from varlist name 0); simpl;
      split; congruence.
  - intros id Hid.
    destruct (constexpr_name2Idx_from varlist name 0) as [k|] eqn:Hk;
      [|discriminate].
    injection Hid as <-. cbn [enumAsInt].
    apply constexpr_name2Idx_from_found in Hk as [_ Hnth].
    rewrite Nat.sub_0_r in Hnth. split; [|exact Hnth].
    apply nth_error_Some. intros E. rewrite E in Hnth. discriminate.
Qed.

(** X22. Every identifier within the table has a name, and looking that
    name up gives the identifier back; for an identifier past the end of the
    table [varName] is undefined. *)
Theorem varIdFromName_of_varName (id : VarId) :
  (enumAsInt id < List.length varlist ->
   exists name, varName id = Some name /\ varIdFromName name = Some id)
  /\ (List.length varlist <= enumAsInt id -> varName id = None).
Proof.
  destruct id as [k]. unfold varName, varInfo. simpl enumAsInt. split.
  - intros Hk.
    destruct (nth_error varlist k) as [vi|] eqn:Hnth.
    + exists (vi_name vi). split; [reflexivity|].
      unfold varIdFromName, constexpr_varIdFromName, constexpr_varName2Idx,
        constexpr_name2Idx.
      rewrite (constexpr_name2Idx_from_nth varlist vi 0 k
                 varlist_names_distinct Hnth).
      reflexivity.
    + apply nth_error_None in Hnth. lia.
  - intros Hk. apply nth_error_None in Hk. rewrite Hk. reflexivity.
Qed.

Lemma varIdFromName_of_varName_witness :
  (exists name, varName (static_cast_VarId 18) = Some name
                /\ varIdFromName name = Some (static_cast_VarId 18))
  /\ varName (static_cast_VarId 20) = None.
Proof.
  split.
  - apply (proj1 (varIdFromName_of_varName (static_cast_VarId 18))).
    vm_compute. lia.
  - apply (proj2 (varIdFromName_of_varName (static_cast_VarId 20))).
    vm_compute. lia.
Defined.

Lemma VarId_enumerators_distinct : NoDup VarId_enumerators.
Proof.
  repeat (constructor;
          [intros H; repeat (destruct H as [H|H]; [discriminate H|]);
           exact H|]).
  constructor.
Qed.

(** X23. The table is in strictly ascending order of the names (so no name
    occurs twice), and the enumerators of [VarId] are exactly the names of
    the table, one for each of its twenty entries. *)
Theorem varlist_sorted_and_enumerated :
  StronglySorted (fun a b => str_ltb a b = true) (map vi_name varlist)
  /\ Permutation VarId_enumerators (map vi_name varlist)
  /\ List.length varlist = 20.
Proof.
  split; [|split; [|reflexivity]].
  - repeat (constructor; [|repeat (constructor; [reflexivity|]); constructor]).
    constructor.
  - apply NoDup_Permutation;
      [exact VarId_enumerators_distinct | exact varlist_names_distinct |].
    intros x. split; intros H;
      repeat (destruct H as [H|H]; [subst x; vm_compute; tauto|]);
      contradiction.
Qed.

(** *** Stream output (NCTypes.cc) *)

(** X24. Writing a [DensityState] appends the formatted value followed by
    the unit of its type, whatever the stream holds already; and for equal
    formatted values the text tells the type: scale factor, mass density and
    number density never give the same text. *)
Theorem put_DensityState_unit_tells_type (fmt : double -> std_string)
  (os : ostream) (ds1 ds2 : DensityState.t) :
  put_DensityState fmt os ds1 = os ++ put_DensityState fmt [] ds1
  /\ (exists unit,
        In unit [lit "x"; lit "gcm3"; lit "perAa3"]
        /\ put_DensityState fmt os ds1
           = os ++ fmt (DensityState.value ds1) ++ unit)
  /\ (put_DensityState fmt os ds1 = put_DensityState fmt os ds2 ->
      fmt (DensityState.value ds1) = fmt (DensityState.value ds2) ->
      DensityState.type ds1 = DensityState.type ds2).
Proof.
  destruct ds1 as [t1 v1], ds2 as [t2 v2].
  unfold put_DensityState, put. simpl. split; [|split].
  - destruct t1; simpl; rewrite <- app_assoc; reflexivity.
  - destruct t1; simpl; rewrite <- app_assoc;
      [exists (lit "x") | exists (lit "gcm3") | exists (lit "perAa3")];
      simpl; tauto.
  - intros Hout Hfmt.
    destruct t1, t2; try reflexivity; exfalso;
      rewrite <- !app_assoc, Hfmt in Hout;
      apply app_inv_head in Hout; apply app_inv_head in Hout;
      discriminate Hout.
Qed.


(** X25. Writing an [OrientDir] appends a text that does not depend on what
    the stream holds already, and the text tells the kind of crystal-frame
    vector: an [HKLPoint] never gives the text of a [CrystalAxis] nor that
    of an empty variant, whatever the vectors and the number format. *)
Theorem put_OrientDir_tells_kind (fmt : double -> std_string) (os : ostream)
  (od : OrientDir) (v1 v2 l1 l2 : ThreeVector) :
  put_OrientDir fmt os od = os ++ put_OrientDir fmt [] od
  /\ put_OrientDir fmt os (Build_OrientDir (has_HKLPoint v1) l1)
     <> put_OrientDir fmt os (Build_OrientDir (has_CrystalAxis v2) l2)
  /\ put_OrientDir fmt os (Build_OrientDir (has_HKLPoint v1) l1)
     <> put_OrientDir fmt os (Build_OrientDir has_nothing l2).
Proof.
  split; [|split].
  - destruct od as [[v|v|] l]; unfold put_OrientDir, put; cbn [crystal lab];
      rewrite <- !app_assoc; reflexivity.
  - unfold put_OrientDir, put; cbn [crystal lab]. rewrite <- !app_assoc.
    intros H. apply app_inv_head in H. discriminate H.
  - unfold put_OrientDir, put; cbn [crystal lab]. rewrite <- !app_assoc.
    intros H. apply app_inv_head in H. discriminate H.
Qed.

(** *** Numeric validators: the accepted ranges *)

Lemma SFcompare_defined (a b : double) :
  a <> S754_nan -> b <> S754_nan -> exists c, SFcompare a b = Some c.
Proof.
  intros Ha Hb.
  destruct a as [sa|sa| |sa ma ea], b as [sb|sb| |sb mb eb];
    try congruence; simpl; eauto.
Qed.

Lemma dbl_ge_not_nan (a b : double) : (a >= b)%dbl = true -> a <> S754_nan.
Proof. intros H ->. destruct b as [|[]| |[]]; discriminate H. Qed.

(** On doubles other than NaN, [a > b] fails exactly when [a <= b] holds. *)
Lemma dbl_not_gt_le (a b : double) :
  a <> S754_nan -> b <> S754_nan ->
  (a > b)%dbl = negb (a <= b)%dbl.
Proof.
  intros Ha Hb. unfold dbl_gt, dbl_le, SFltb, SFleb.
  rewrite (SFcompare_swap a b).
  destruct (SFcompare_defined a b Ha Hb) as [c ->]. destruct c; reflexivity.
Qed.

Lemma at_least_0_001_positive (value : double) :
  (value >= Lit.d1e_3)%dbl = true -> (value > Lit.d0_0)%dbl = true.
Proof.
  destruct value as [s|[]| |[] m e]; vm_compute; intros H;
    try discriminate H; reflexivity.
Qed.

(** X26. The validator of dcutoff accepts exactly -1, 0 and the values of
    the closed range from 1e-3 to 1e5.  Of the rejected values, those that
    are not greater than 0 (negative ones, NaN) get the message that dcutoff
    must be >=0.0, and the positive ones outside the range get the message
    naming the range. *)
Theorem dcutoff_accepts_iff (value : double) :
  ((exists stored, vardef_dcutoff.value_validate value = Ok stored)
   <-> ((value == Lit.neg_d1_0) || (value == Lit.d0_0)
        || ((value >= Lit.d1e_3) && (value <= Lit.d1e5)))%dbl = true)
  /\ (((value == Lit.neg_d1_0) || (value == Lit.d0_0))%dbl = false ->
      (value > Lit.d0_0)%dbl = false ->
      vardef_dcutoff.value_validate value
      = Throw (BadInput (lit "dcutoff must be >=0.0")))
  /\ ((value > Lit.d0_0)%dbl = true ->
      ((value >= Lit.d1e_3) && (value <= Lit.d1e5))%dbl = false ->
      vardef_dcutoff.value_validate value
      = Throw (BadInput (lit "dcutoff must be 0 (for automatic selection), or in range [1e-3,1e5] (Aa)"))).
Proof.
  unfold vardef_dcutoff.value_validate. split; [|split].
  - destruct ((value == Lit.neg_d1_0) || (value == Lit.d0_0))%dbl;
      [split; eauto|]. simpl.
    destruct ((value >= Lit.d1e_3) && (value <= Lit.d1e5))%dbl eqn:Hrange.
    + apply andb_true_iff in Hrange as [Hlo _].
      rewrite (at_least_0_001_positive value Hlo). simpl. split; eauto.
    + destruct (negb (value > Lit.d0_0)%dbl); simpl;
        split; try discriminate; intros [stored H]; discriminate H.
  - intros -> ->. reflexivity.
  - intros Hpos Hrange.
    assert (Hspecial : ((value == Lit.neg_d1_0) || (value == Lit.d0_0))%dbl = false).
    { destruct value as [s|[]| |[] m e]; try discriminate Hpos; reflexivity. }
    rewrite Hspecial, Hpos, Hrange. reflexivity.
Qed.

Lemma dcutoff_accepts_iff_witness :
  vardef_dcutoff.value_validate (S754_finite true 4503599627370496 (-51))
  = Throw (BadInput (lit "dcutoff must be >=0.0"))
  /\ vardef_dcutoff.value_validate Lit.d1e_4
     = Throw (BadInput (lit "dcutoff must be 0 (for automatic selection), or in range [1e-3,1e5] (Aa)")).
Proof.
  split.
  - apply (proj1 (proj2 (dcutoff_accepts_iff
                           (S754_finite true 4503599627370496 (-51)))));
      reflexivity.
  - apply (proj2 (proj2 (dcutoff_accepts_iff Lit.d1e_4))); reflexivity.
Defined.

(** X27. The validators written as a negated lower bound followed by an
    upper bound accept exactly the interval named in their message: mosprec
    the closed range from 1e-7 to 1e-1, and mos the values greater than 0
    and up to [kPiHalf] (for a [kPiHalf] that is a number). *)
Theorem mos_mosprec_accept_their_interval (kPiHalf value : double) :
  kPiHalf <> S754_nan ->
  ((exists stored, vardef_mosprec.value_validate value = Ok stored)
   <-> ((value >= Lit.d1e_7) && (value <= Lit.d1e_1))%dbl = true)
  /\ ((exists stored, vardef_mos.value_validate kPiHalf value = Ok stored)
      <-> ((value > Lit.d0_0) && (value <= kPiHalf))%dbl = true).
Proof.
  intros Hk. unfold vardef_mosprec.value_validate, vardef_mos.value_validate.
  split.
  - destruct (value >= Lit.d1e_7)%dbl eqn:Hlo; simpl.
    + rewrite (dbl_not_gt_le value Lit.d1e_1 (dbl_ge_not_nan _ _ Hlo))
        by discriminate.
      destruct (value <= Lit.d1e_1)%dbl; simpl; split; eauto;
        try discriminate; intros [stored H]; discriminate H.
    + split; [intros [stored H]; discriminate H | discriminate].
  - destruct (value > Lit.d0_0)%dbl eqn:Hlo; simpl.
    + assert (Hv : value <> S754_nan)
        by (intros ->; discriminate Hlo).
      rewrite (dbl_not_gt_le value kPiHalf Hv Hk).
      destruct (value <= kPiHalf)%dbl; simpl; split; eauto;
        try discriminate; intros [stored H]; discriminate H.
    + split; [intros [stored H]; discriminate H | discriminate].
Qed.

Lemma mos_mosprec_accept_their_interval_witness :
  (exists stored,
      vardef_mos.value_validate (S754_finite false 7074237752028440 (-52))
        Lit.d0_4 = Ok stored)
  <-> ((Lit.d0_4 > Lit.d0_0)
       && (Lit.d0_4 <= S754_finite false 7074237752028440 (-52)))%dbl = true.
Proof.
  apply (mos_mosprec_accept_their_interval
           (S754_finite false 7074237752028440 (-52)) Lit.d0_4).
  discriminate.
Defined.
